(** * The image-generation form of [index.tsx], embedded and verified

    The page script keeps six module-level variables (the three upload
    slots), reads and writes a handful of DOM elements, and talks to a
    remote model API.  The embedding below threads all of that through
    one explicit [World] value; JavaScript exceptions are completions of
    a small state-and-exception monad, so that [try]/[catch]/[finally]
    keeps the state a throwing block has already written.

    An [async] function is run to completion: what an awaited promise
    settles to is given by the environment ([Remote] for the service,
    [File] for a picked file), and no other handler runs in between. *)

From Stdlib Require Import List NArith String Ascii Bool Lia.
From Stdlib Require Import DecimalString.
From Stdlib Require DecimalPos DecimalN.
Import ListNotations.

Set Implicit Arguments.

(* ================================================================== *)
(** ** JavaScript strings *)
(* ================================================================== *)

(** A JavaScript string is a sequence of UTF-16 code units. *)
Definition jsstring := list N.

(** Literals of the source are ASCII; [js] spells them as code units. *)
Definition js (s : string) : jsstring :=
  map N_of_ascii (list_ascii_of_string s).

Fixpoint str_eqb (a b : jsstring) : bool :=
  match a, b with
  | [], [] => true
  | x :: a', y :: b' => N.eqb x y && str_eqb a' b'
  | _, _ => false
  end.

(** WhiteSpace and LineTerminator of ECMA-262, the code units that
    [String.prototype.trim] strips. *)
Definition is_white (c : N) : bool :=
  (N.leb 9 c && N.leb c 13)              (* TAB LF VT FF CR *)
  || N.eqb c 32                          (* SPACE *)
  || N.eqb c 160                         (* NBSP *)
  || N.eqb c 5760                        (* U+1680 *)
  || (N.leb 8192 c && N.leb c 8202)      (* U+2000 .. U+200A *)
  || N.eqb c 8232 || N.eqb c 8233        (* LS PS *)
  || N.eqb c 8239 || N.eqb c 8287        (* U+202F U+205F *)
  || N.eqb c 12288                       (* U+3000 *)
  || N.eqb c 65279.                      (* U+FEFF *)

Fixpoint trimStart (s : jsstring) : jsstring :=
  match s with
  | c :: r => if is_white c then trimStart r else s
  | [] => []
  end.

Definition trimEnd (s : jsstring) : jsstring := rev (trimStart (rev s)).

(** [s.trim()] *)
Definition trim (s : jsstring) : jsstring := trimEnd (trimStart s).

(** [s.startsWith(p)] *)
Fixpoint startsWith (s p : jsstring) : bool :=
  match p with
  | [] => true
  | c :: p' =>
      match s with
      | d :: s' => N.eqb c d && startsWith s' p'
      | [] => false
      end
  end.

(** [s.split(',')]: the pieces between commas, never an empty list. *)
Fixpoint split_comma (s : jsstring) : list jsstring :=
  match s with
  | [] => [[]]
  | c :: r =>
      if N.eqb c 44 then [] :: split_comma r
      else match split_comma r with
           | piece :: more => (c :: piece) :: more
           | [] => [[c]]
           end
  end.

(** [null] and [undefined] are both modelled by [None]; the script only
    ever tests such values for truthiness or interpolates them. *)
Definition truthy (v : option jsstring) : bool :=
  match v with
  | Some (_ :: _) => true
  | _ => false
  end.

(** Interpolation [`${v}`] of a possibly undefined value. *)
Definition interp (v : option jsstring) : jsstring :=
  match v with
  | Some s => s
  | None => js "undefined"
  end.

(** [`${n}`] for a non-negative integer. *)
Definition decimal (n : N) : jsstring :=
  js (NilZero.string_of_uint (N.to_uint n)).

(** [`data:${mimeType};base64,${data}`] *)
Definition dataUrl (mimeType data : jsstring) : jsstring :=
  js "data:" ++ mimeType ++ js ";base64," ++ data.

(* ================================================================== *)
(** ** DOM elements *)
(* ================================================================== *)

(** Only the class list of a plain element matters to the script. *)
Record Element := { classList : list jsstring }.

Definition contains (c : jsstring) (e : Element) : bool :=
  existsb (str_eqb c) (classList e).

Definition classList_add (c : jsstring) (e : Element) : Element :=
  if contains c e then e else {| classList := classList e ++ [c] |}.

Definition classList_remove (c : jsstring) (e : Element) : Element :=
  {| classList := filter (fun x => negb (str_eqb c x)) (classList e) |}.

(** One gallery child: the [div.image-container] built by [appendImage],
    with the attributes that vary ([className], [textContent] and
    [aria-label] are constants). *)
Record ImageContainer := {
  img_src : jsstring;
  img_alt : jsstring;
  link_href : jsstring;
  link_download : jsstring
}.

(** [#image-gallery]: its class list and its children. *)
Record Gallery := {
  gallery_el : Element;
  children : list ImageContainer
}.

(* ================================================================== *)
(** ** Types of the script and of the SDK *)
(* ================================================================== *)

Inductive AspectRatio := Ratio_1_1 | Ratio_3_4 | Ratio_4_3 | Ratio_16_9.

Inductive Mode := TextToImage | ImageEdit | ImageUpscale | FaceSwap.

Definition textToImageModel : jsstring := js "imagen-4.0-generate-001".
Definition imageEditModel : jsstring := js "gemini-2.5-flash-image-preview".

Inductive Modality := IMAGE | TEXT.

(** A request part: [{inlineData: {data, mimeType}}] or [{text}].  The
    inline fields carry the module variables as they are
    ([string | null]). *)
Inductive RequestPart :=
| InlineData (data mimeType : option jsstring)
| Text (text : jsstring).

Record GenerateContentParameters := {
  gc_model : jsstring;
  gc_parts : list RequestPart;
  gc_responseModalities : list Modality
}.

Record GenerateImagesParameters := {
  gi_model : jsstring;
  gi_prompt : jsstring;
  numberOfImages : N;
  outputMimeType : jsstring;
  aspectRatio : AspectRatio;
  negativePrompt : jsstring
}.

(** Modelled from the spec: the response types of the [@google/genai]
    SDK, which the repository imports but does not contain.  A response
    part optionally carries inline image bytes with a MIME type; the
    image-generation response is an ordered collection of images, each
    exposing its bytes.  The candidate list, a candidate's content and
    the content's part list may each be missing. *)
Record Blob := { blob_data : jsstring; blob_mimeType : jsstring }.
Record Part := { inlineData : option Blob; part_text : option jsstring }.
Record Content := { parts : option (list Part) }.
Record Candidate := { content : option Content }.
Record GenerateContentResponse := { candidates : option (list Candidate) }.
Record GeneratedImage := { imageBytes : jsstring }.
Record GenerateImagesResponse := { generatedImages : list GeneratedImage }.

(** Values that can be thrown: the [TypeError] of a property access on
    [null]/[undefined], an [Error] made by the script, the event a
    [FileReader] hands to [onerror], and whatever the SDK rejects with. *)
Inductive JsError :=
| TypeError
| Error (message : jsstring)
| ProgressEvent
| ApiError (message : jsstring).

(** [(error as Error).message].  The wording of an engine's [TypeError]
    differs between browsers; the script never displays one. *)
Definition message_of (e : JsError) : option jsstring :=
  match e with
  | TypeError => Some (js "Cannot read properties of undefined")
  | Error m => Some m
  | ProgressEvent => None
  | ApiError m => Some m
  end.

(** How an evaluation ends; also what an awaited promise settles to. *)
Inductive Completion (A : Type) :=
| Normal (a : A)
| Throw (e : JsError).
Arguments Throw {A} e.

(** What the user and the network see, oldest first. *)
Inductive Event :=
| Alert (msg : jsstring)
| ConsoleError (e : JsError)
| CallGenerateContent (req : GenerateContentParameters)
| CallGenerateImages (req : GenerateImagesParameters).

(** A picked or dropped file: its declared type and what a
    [FileReader.readAsDataURL] on it ends with. *)
Inductive ReadOutcome :=
| Loaded (result : jsstring)
| ReadFailed.

Record File := { file_type : jsstring; file_read : ReadOutcome }.

(* ================================================================== *)
(** ** The world the script runs in *)
(* ================================================================== *)

(** One upload slot with its widgets.  The script spells the three
    slots out one by one: [uploadedImageBase64], [uploadedImageMimeType],
    [imageUploadInput], [imagePreviewContainer], [imagePreview] and
    [dropZoneWrapper] for the single image, and the same with a
    [source]/[target] prefix for the face swap.  Elements fetched with a
    cast ([as HTMLInputElement]) are present by their type; the others
    are [HTMLElement | null] and are reached through [?.]. *)
Record Slot := {
  imageBase64 : option jsstring;
  imageMimeType : option jsstring;
  uploadInput_value : jsstring;
  previewContainer : option Element;
  preview_src : jsstring;
  dropZoneWrapper : option Element
}.

Record Fieldsets := {
  promptFieldset : option Element;
  imageUploadFieldset : option Element;
  faceSwapFieldset : option Element;
  negativePromptFieldset : option Element;
  aspectRatioFieldset : option Element;
  styleFieldset : option Element
}.

Record World := {
  single : Slot;
  source : Slot;
  target : Slot;
  imageGallery : option Gallery;
  promptInput_value : jsstring;
  negativePromptInput_value : jsstring;
  fieldsets : Fieldsets;
  (** [document.querySelector('input[name=...]:checked')] of the three
      radio groups; [None] when no radio of the group is checked. *)
  checked_mode : option Mode;
  checked_imageStyle : option jsstring;
  checked_aspectRatio : option AspectRatio;
  (** the events so far, and how often [Date.now()] was read *)
  log : list Event;
  ticks : nat
}.

(** The module variables under the names of the source. *)
Definition uploadedImageBase64 (w : World) := imageBase64 (single w).
Definition uploadedImageMimeType (w : World) := imageMimeType (single w).
Definition sourceImageBase64 (w : World) := imageBase64 (source w).
Definition sourceImageMimeType (w : World) := imageMimeType (source w).
Definition targetImageBase64 (w : World) := imageBase64 (target w).
Definition targetImageMimeType (w : World) := imageMimeType (target w).

Definition set_single (f : Slot -> Slot) (w : World) : World :=
  {| single := f (single w); source := source w; target := target w;
     imageGallery := imageGallery w;
     promptInput_value := promptInput_value w;
     negativePromptInput_value := negativePromptInput_value w;
     fieldsets := fieldsets w; checked_mode := checked_mode w;
     checked_imageStyle := checked_imageStyle w;
     checked_aspectRatio := checked_aspectRatio w;
     log := log w; ticks := ticks w |}.

Definition set_source (f : Slot -> Slot) (w : World) : World :=
  {| single := single w; source := f (source w); target := target w;
     imageGallery := imageGallery w;
     promptInput_value := promptInput_value w;
     negativePromptInput_value := negativePromptInput_value w;
     fieldsets := fieldsets w; checked_mode := checked_mode w;
     checked_imageStyle := checked_imageStyle w;
     checked_aspectRatio := checked_aspectRatio w;
     log := log w; ticks := ticks w |}.

Definition set_target (f : Slot -> Slot) (w : World) : World :=
  {| single := single w; source := source w; target := f (target w);
     imageGallery := imageGallery w;
     promptInput_value := promptInput_value w;
     negativePromptInput_value := negativePromptInput_value w;
     fieldsets := fieldsets w; checked_mode := checked_mode w;
     checked_imageStyle := checked_imageStyle w;
     checked_aspectRatio := checked_aspectRatio w;
     log := log w; ticks := ticks w |}.

Definition set_gallery (f : Gallery -> Gallery) (w : World) : World :=
  {| single := single w; source := source w; target := target w;
     imageGallery := option_map f (imageGallery w);
     promptInput_value := promptInput_value w;
     negativePromptInput_value := negativePromptInput_value w;
     fieldsets := fieldsets w; checked_mode := checked_mode w;
     checked_imageStyle := checked_imageStyle w;
     checked_aspectRatio := checked_aspectRatio w;
     log := log w; ticks := ticks w |}.

Definition set_prompts (p n : jsstring) (w : World) : World :=
  {| single := single w; source := source w; target := target w;
     imageGallery := imageGallery w;
     promptInput_value := p;
     negativePromptInput_value := n;
     fieldsets := fieldsets w; checked_mode := checked_mode w;
     checked_imageStyle := checked_imageStyle w;
     checked_aspectRatio := checked_aspectRatio w;
     log := log w; ticks := ticks w |}.

Definition set_fieldsets (f : Fieldsets -> Fieldsets) (w : World) : World :=
  {| single := single w; source := source w; target := target w;
     imageGallery := imageGallery w;
     promptInput_value := promptInput_value w;
     negativePromptInput_value := negativePromptInput_value w;
     fieldsets := f (fieldsets w); checked_mode := checked_mode w;
     checked_imageStyle := checked_imageStyle w;
     checked_aspectRatio := checked_aspectRatio w;
     log := log w; ticks := ticks w |}.

Definition emit (e : Event) (w : World) : World :=
  {| single := single w; source := source w; target := target w;
     imageGallery := imageGallery w;
     promptInput_value := promptInput_value w;
     negativePromptInput_value := negativePromptInput_value w;
     fieldsets := fieldsets w; checked_mode := checked_mode w;
     checked_imageStyle := checked_imageStyle w;
     checked_aspectRatio := checked_aspectRatio w;
     log := log w ++ [e]; ticks := ticks w |}.

Definition tick (w : World) : World :=
  {| single := single w; source := source w; target := target w;
     imageGallery := imageGallery w;
     promptInput_value := promptInput_value w;
     negativePromptInput_value := negativePromptInput_value w;
     fieldsets := fieldsets w; checked_mode := checked_mode w;
     checked_imageStyle := checked_imageStyle w;
     checked_aspectRatio := checked_aspectRatio w;
     log := log w; ticks := S (ticks w) |}.

(* ================================================================== *)
(** ** The monad of the script: state, and completions that may throw *)
(* ================================================================== *)

Definition M (A : Type) : Type := World -> Completion A * World.

Definition ret {A} (a : A) : M A := fun w => (Normal a, w).

Definition bind {A B} (m : M A) (k : A -> M B) : M B :=
  fun w =>
    match m w with
    | (Normal a, w') => k a w'
    | (Throw e, w') => (Throw e, w')
    end.

Definition throw {A} (e : JsError) : M A := fun w => (Throw e, w).

Definition gets {A} (f : World -> A) : M A := fun w => (Normal (f w), w).

Definition modify (f : World -> World) : M unit :=
  fun w => (Normal tt, f w).

Declare Scope js_scope.
Delimit Scope js_scope with js.
Notation "x <- m ;; k" := (bind m (fun x => k))
  (at level 61, m at next level, right associativity) : js_scope.
Notation "m ;; k" := (bind m (fun _ => k))
  (at level 61, right associativity) : js_scope.
Open Scope js_scope.

(** [try { body } catch (error) { handler } finally { fin }].  A [return]
    inside [body] is a normal completion of [body] here: every [return]
    of the script stands last in its branch. *)
Definition try_catch_finally (body : M unit) (handler : JsError -> M unit)
    (fin : M unit) : M unit :=
  fun w =>
    match body w with
    | (Normal _, w1) => fin w1
    | (Throw e, w1) =>
        match handler e w1 with
        | (Normal _, w2) => fin w2
        | (Throw e', w2) =>
            match fin w2 with
            | (Normal _, w3) => (Throw e', w3)
            | (Throw e'', w3) => (Throw e'', w3)
            end
        end
    end.

(** [try { body } catch (error) { handler }] *)
Definition try_catch {A} (body : M A) (handler : JsError -> M A) : M A :=
  fun w =>
    match body w with
    | (Normal a, w1) => (Normal a, w1)
    | (Throw e, w1) => handler e w1
    end.

(** [list.forEach(f)] *)
Fixpoint forEach {A} (l : list A) (f : A -> M unit) : M unit :=
  match l with
  | [] => ret tt
  | x :: r => f x ;; forEach r f
  end.

(** [alert(msg)] and [console.error(e)] *)
Definition alert (msg : jsstring) : M unit := modify (emit (Alert msg)).
Definition console_error (e : JsError) : M unit :=
  modify (emit (ConsoleError e)).

(** [o.p] for an [o] that may be [null] or [undefined]. *)
Definition deref {A} (o : option A) : M A :=
  match o with
  | Some a => ret a
  | None => throw TypeError
  end.

(** [await promise] *)
Definition await {A} (settled : Completion A) : M A :=
  match settled with
  | Normal a => ret a
  | Throw e => throw e
  end.

(** [imageGallery.classList.add/remove(c)], [imageGallery.innerHTML = ''] *)
Definition gallery_classList (f : Element -> Element) (g : Gallery) : Gallery :=
  {| gallery_el := f (gallery_el g); children := children g |}.

Definition gallery_clear (g : Gallery) : Gallery :=
  {| gallery_el := gallery_el g; children := [] |}.

Definition gallery_appendChild (c : ImageContainer) (g : Gallery) : Gallery :=
  {| gallery_el := gallery_el g; children := children g ++ [c] |}.

(* ================================================================== *)
(** ** Upload slots: [fileToBase64], [handle*File], [remove*Image] *)
(* ================================================================== *)

Definition hidden : jsstring := js "hidden".
Definition loading : jsstring := js "loading".

(** [fileToBase64(file)]: what the returned promise settles to.  The
    base64 text is [result.split(',')[1]], undefined without a comma. *)
Definition fileToBase64 (file : File) : Completion (option jsstring * jsstring) :=
  if negb (startsWith (file_type file) (js "image/")) then
    Throw (Error (js "File is not an image."))
  else
    match file_read file with
    | Loaded result => Normal (nth_error (split_comma result) 1, file_type file)
    | ReadFailed => Throw ProgressEvent
    end.

(** The three assignments and two class changes of a [handle*File] body. *)
Definition store_image (base64 : option jsstring) (mimeType : jsstring)
    (s : Slot) : Slot :=
  {| imageBase64 := base64;
     imageMimeType := Some mimeType;
     uploadInput_value := uploadInput_value s;
     previewContainer := option_map (classList_remove hidden) (previewContainer s);
     preview_src := js "data:" ++ mimeType ++ js ";base64," ++ interp base64;
     dropZoneWrapper := option_map (classList_add hidden) (dropZoneWrapper s) |}.

Definition handleFile (on_slot : (Slot -> Slot) -> World -> World)
    (file : File) : M unit :=
  try_catch
    (r <- await (fileToBase64 file) ;;
     modify (on_slot (store_image (fst r) (snd r))))
    (fun error => alert (interp (message_of error))).

Definition handleSingleFile : File -> M unit := handleFile set_single.
Definition handleSourceFile : File -> M unit := handleFile set_source.
Definition handleTargetFile : File -> M unit := handleFile set_target.

(** The body shared by the three [remove*Image] functions. *)
Definition clear_slot (s : Slot) : Slot :=
  {| imageBase64 := None;
     imageMimeType := None;
     uploadInput_value := [];
     previewContainer := option_map (classList_add hidden) (previewContainer s);
     preview_src := preview_src s;
     dropZoneWrapper := option_map (classList_remove hidden) (dropZoneWrapper s) |}.

Definition removeSingleUploadedImage : M unit := modify (set_single clear_slot).
Definition removeSourceImage : M unit := modify (set_source clear_slot).
Definition removeTargetImage : M unit := modify (set_target clear_slot).

Definition clearAll : M unit :=
  modify (set_prompts [] []) ;;
  modify (set_gallery gallery_clear) ;;
  removeSingleUploadedImage ;;
  removeSourceImage ;;
  removeTargetImage.

(* ================================================================== *)
(** ** [updateUiForMode] *)
(* ================================================================== *)

Definition hide (o : option Element) : option Element :=
  option_map (classList_add hidden) o.
Definition show (o : option Element) : option Element :=
  option_map (classList_remove hidden) o.

(** [allFieldsets.forEach(fs => fs?.classList.add('hidden'))] *)
Definition hide_all (f : Fieldsets) : Fieldsets :=
  {| promptFieldset := hide (promptFieldset f);
     imageUploadFieldset := hide (imageUploadFieldset f);
     faceSwapFieldset := hide (faceSwapFieldset f);
     negativePromptFieldset := hide (negativePromptFieldset f);
     aspectRatioFieldset := hide (aspectRatioFieldset f);
     styleFieldset := hide (styleFieldset f) |}.

Definition show_for (mode : Mode) (f : Fieldsets) : Fieldsets :=
  match mode with
  | TextToImage =>
      {| promptFieldset := show (promptFieldset f);
         imageUploadFieldset := imageUploadFieldset f;
         faceSwapFieldset := faceSwapFieldset f;
         negativePromptFieldset := show (negativePromptFieldset f);
         aspectRatioFieldset := show (aspectRatioFieldset f);
         styleFieldset := show (styleFieldset f) |}
  | ImageEdit =>
      {| promptFieldset := show (promptFieldset f);
         imageUploadFieldset := show (imageUploadFieldset f);
         faceSwapFieldset := faceSwapFieldset f;
         negativePromptFieldset := negativePromptFieldset f;
         aspectRatioFieldset := aspectRatioFieldset f;
         styleFieldset := styleFieldset f |}
  | ImageUpscale =>
      {| promptFieldset := promptFieldset f;
         imageUploadFieldset := show (imageUploadFieldset f);
         faceSwapFieldset := faceSwapFieldset f;
         negativePromptFieldset := negativePromptFieldset f;
         aspectRatioFieldset := aspectRatioFieldset f;
         styleFieldset := styleFieldset f |}
  | FaceSwap =>
      {| promptFieldset := promptFieldset f;
         imageUploadFieldset := imageUploadFieldset f;
         faceSwapFieldset := show (faceSwapFieldset f);
         negativePromptFieldset := negativePromptFieldset f;
         aspectRatioFieldset := aspectRatioFieldset f;
         styleFieldset := styleFieldset f |}
  end.

Definition updateUiForMode (mode : Mode) : M unit :=
  modify (set_fieldsets hide_all) ;;
  modify (set_fieldsets (show_for mode)) ;;
  match mode with
  | TextToImage =>
      removeSingleUploadedImage ;; removeSourceImage ;; removeTargetImage
  | ImageEdit => removeSourceImage ;; removeTargetImage
  | ImageUpscale => removeSourceImage ;; removeTargetImage
  | FaceSwap => removeSingleUploadedImage
  end.

(* ================================================================== *)
(** ** [appendImage] and [generate] *)
(* ================================================================== *)

(** The remote service: what each call's promise settles to. *)
Record Remote := {
  generateContent :
    GenerateContentParameters -> Completion GenerateContentResponse;
  generateImages :
    GenerateImagesParameters -> Completion GenerateImagesResponse
}.

Definition upscaleInstruction : jsstring :=
  js "Upscale this image to a higher resolution, enhancing details without altering the content or style.".

Definition faceSwapInstruction : jsstring :=
  js "From the first image provided, extract the face. Then, seamlessly swap this face onto the most prominent person in the second image provided. Ensure the lighting, skin tone, and angle of the new face match the target image's environment.".

Definition genericFailure : jsstring :=
  js "An error occurred while generating images. Check the console for details.".

(** The [div.image-container] of [appendImage]: [img] with [src] and
    [alt = promptInput.value || 'Generated/Edited Image'], and the
    download link with [href] and a file name made from the clock. *)
Definition image_container (imageUrl value : jsstring) (now : N)
  : ImageContainer :=
  {| img_src := imageUrl;
     img_alt := match value with
                | [] => js "Generated/Edited Image"
                | _ => value
                end;
     link_href := imageUrl;
     link_download := js "imagen-generated-" ++ decimal now ++ js ".png" |}.

Section Program.

(** [ai], and the successive readings of [Date.now()]. *)
Variable ai : Remote.
Variable dateNow : nat -> N.

Definition Date_now : M N :=
  n <- gets ticks ;;
  modify tick ;;
  ret (dateNow n).

Definition appendImage (imageUrl : jsstring) : M unit :=
  gallery <- gets imageGallery ;;
  match gallery with
  | None => ret tt
  | Some _ =>
      value <- gets promptInput_value ;;
      now <- Date_now ;;
      modify (set_gallery (gallery_appendChild
        (image_container imageUrl value now)))
  end.

Definition models_generateContent (req : GenerateContentParameters)
  : M GenerateContentResponse :=
  modify (emit (CallGenerateContent req)) ;;
  await (generateContent ai req).

Definition models_generateImages (req : GenerateImagesParameters)
  : M GenerateImagesResponse :=
  modify (emit (CallGenerateImages req)) ;;
  await (generateImages ai req).

Definition remove_loading : M unit :=
  modify (set_gallery (gallery_classList (classList_remove loading))).

(** [response.candidates[0].content.parts.forEach(part => ...)], the
    extraction that closes both content-edit branches. *)
Definition extract (response : GenerateContentResponse) : M unit :=
  cs <- deref (candidates response) ;;
  c <- deref (nth_error cs 0) ;;
  ct <- deref (content c) ;;
  ps <- deref (parts ct) ;;
  forEach ps (fun part =>
    match inlineData part with
    | Some d => appendImage (dataUrl (blob_mimeType d) (blob_data d))
    | None => ret tt
    end).

(** Lines 101-120: the call and the extraction of the edit and
    upscale modes, once [promptForEdit] is known. *)
Definition edit_call (promptForEdit : jsstring) : M unit :=
  data <- gets uploadedImageBase64 ;;
  mimeType <- gets uploadedImageMimeType ;;
  response <- models_generateContent
    {| gc_model := imageEditModel;
       gc_parts := [InlineData data mimeType; Text promptForEdit];
       gc_responseModalities := [IMAGE; TEXT] |} ;;
  extract response.

(** The block guarded by [try]. *)
Definition generate_body (selectedMode : Mode) : M unit :=
  match selectedMode with
  | ImageEdit | ImageUpscale =>
      b <- gets uploadedImageBase64 ;;
      m <- gets uploadedImageMimeType ;;
      if negb (truthy b) || negb (truthy m) then
        alert (js "Please upload an image for "
               ++ match selectedMode with
                  | ImageEdit => js "editing"
                  | _ => js "upscaling"
                  end ++ js ".") ;;
        remove_loading
      else
        match selectedMode with
        | ImageEdit =>
            promptForEdit <- gets promptInput_value ;;
            match trim promptForEdit with
            | [] =>
                alert (js "Please enter a prompt for editing.") ;;
                remove_loading
            | _ => edit_call promptForEdit
            end
        | _ => edit_call upscaleInstruction
        end
  | FaceSwap =>
      s <- gets sourceImageBase64 ;;
      t <- gets targetImageBase64 ;;
      if negb (truthy s) || negb (truthy t) then
        alert (js "Please upload both a source face and a target image for face swap.") ;;
        remove_loading
      else
        sm <- gets sourceImageMimeType ;;
        tm <- gets targetImageMimeType ;;
        response <- models_generateContent
          {| gc_model := imageEditModel;
             gc_parts := [InlineData s sm; InlineData t tm;
                          Text faceSwapInstruction];
             gc_responseModalities := [IMAGE; TEXT] |} ;;
        extract response
  | TextToImage =>
      userPrompt <- gets promptInput_value ;;
      match trim userPrompt with
      | [] =>
          alert (js "Please enter a prompt.") ;;
          remove_loading
      | _ =>
          style <- gets checked_imageStyle ;;
          selectedStyle <- deref style ;;
          let finalPrompt :=
            match selectedStyle with
            | [] => userPrompt
            | _ => selectedStyle ++ js ", " ++ userPrompt
            end in
          negative <- gets negativePromptInput_value ;;
          ratio <- gets checked_aspectRatio ;;
          selectedAspectRatio <- deref ratio ;;
          response <- models_generateImages
            {| gi_model := textToImageModel;
               gi_prompt := finalPrompt;
               numberOfImages := 4;
               outputMimeType := js "image/png";
               aspectRatio := selectedAspectRatio;
               negativePrompt := negative |} ;;
          forEach (generatedImages response) (fun image =>
            appendImage (js "data:image/png;base64," ++ imageBytes image))
      end
  end.

(** [generate()].  [promptInput] is present by its type, so the guard
    of line 74 only tests the gallery.  Reading [.value] of the
    checked mode radio throws before the [try] when none is checked. *)
Definition generate : M unit :=
  gallery <- gets imageGallery ;;
  match gallery with
  | None => ret tt
  | Some _ =>
      checked <- gets checked_mode ;;
      selectedMode <- deref checked ;;
      modify (set_gallery gallery_clear) ;;
      modify (set_gallery (gallery_classList (classList_add loading))) ;;
      try_catch_finally
        (generate_body selectedMode)
        (fun error => console_error error ;; alert genericFailure)
        remove_loading
  end.

End Program.

(* ================================================================== *)
(** ** Observations used by the statements *)
(* ================================================================== *)

Definition is_call (e : Event) : bool :=
  match e with
  | CallGenerateContent _ | CallGenerateImages _ => true
  | _ => false
  end.

(** The remote calls recorded in a log. *)
Definition remote_calls (l : list Event) : list Event := filter is_call l.

(** The rejection, if any, that the remote answers a call with. *)
Definition remote_failure (ai : Remote) (call : Event) : option JsError :=
  match call with
  | CallGenerateContent r =>
      match generateContent ai r with Throw e => Some e | Normal _ => None end
  | CallGenerateImages r =>
      match generateImages ai r with Throw e => Some e | Normal _ => None end
  | _ => None
  end.

(** The loading indicator: class [loading] on the gallery. *)
Definition is_loading (w : World) : bool :=
  match imageGallery w with
  | Some g => contains loading (gallery_el g)
  | None => false
  end.

Definition gallery_children (w : World) : list ImageContainer :=
  match imageGallery w with
  | Some g => children g
  | None => []
  end.

(** An element that may be missing from the page is hidden (shown) when
    it carries (does not carry) the class [hidden] wherever it exists. *)
Definition is_hidden (o : option Element) : Prop :=
  forall e, o = Some e -> contains hidden e = true.
Definition is_shown (o : option Element) : Prop :=
  forall e, o = Some e -> contains hidden e = false.

(** A slot in its reset state: no stored image or MIME type, file input
    cleared, drop zone shown, preview hidden. *)
Record cleared (s : Slot) : Prop := {
  cleared_image : imageBase64 s = None;
  cleared_mime : imageMimeType s = None;
  cleared_input : uploadInput_value s = [];
  cleared_preview : is_hidden (previewContainer s);
  cleared_zone : is_shown (dropZoneWrapper s)
}.

Definition blank (s : jsstring) : Prop := trim s = [].

(** A slot holds no image when its base64 variable is [null]; the
    handlers set and clear it together with the MIME type. *)
Definition slot_empty (s : Slot) : Prop := imageBase64 s = None.

(** The violations of the mode preconditions, as the specification
    lists them. *)
Definition precondition_violated (mode : Mode) (w : World) : Prop :=
  match mode with
  | TextToImage => blank (promptInput_value w)
  | ImageEdit => blank (promptInput_value w) \/ slot_empty (single w)
  | ImageUpscale => slot_empty (single w)
  | FaceSwap => slot_empty (source w) \/ slot_empty (target w)
  end.

Definition nonblank (s : jsstring) : bool :=
  match trim s with [] => false | _ => true end.

(** The tests [generate] runs before it calls out, as one boolean. *)
Definition valid (mode : Mode) (w : World) : bool :=
  match mode with
  | TextToImage => nonblank (promptInput_value w)
  | ImageEdit =>
      truthy (uploadedImageBase64 w) && truthy (uploadedImageMimeType w)
      && nonblank (promptInput_value w)
  | ImageUpscale =>
      truthy (uploadedImageBase64 w) && truthy (uploadedImageMimeType w)
  | FaceSwap => truthy (sourceImageBase64 w) && truthy (targetImageBase64 w)
  end.

Definition content_mode (mode : Mode) : bool :=
  match mode with TextToImage => false | _ => true end.

(** The content-edit request of each mode, as the specification's
    dispatch table gives it. *)
Definition content_request (mode : Mode) (w : World)
  : GenerateContentParameters :=
  {| gc_model := imageEditModel;
     gc_parts :=
       match mode with
       | FaceSwap =>
           [InlineData (sourceImageBase64 w) (sourceImageMimeType w);
            InlineData (targetImageBase64 w) (targetImageMimeType w);
            Text faceSwapInstruction]
       | ImageUpscale =>
           [InlineData (uploadedImageBase64 w) (uploadedImageMimeType w);
            Text upscaleInstruction]
       | _ =>
           [InlineData (uploadedImageBase64 w) (uploadedImageMimeType w);
            Text (promptInput_value w)]
       end;
     gc_responseModalities := [IMAGE; TEXT] |}.

(** The parts of the first candidate, when the response has them. *)
Definition first_parts (r : GenerateContentResponse) : option (list Part) :=
  match candidates r with
  | Some (c :: _) =>
      match content c with
      | Some ct => parts ct
      | None => None
      end
  | _ => None
  end.

(** The inline images among some parts, in order. *)
Fixpoint inline_blobs (ps : list Part) : list Blob :=
  match ps with
  | [] => []
  | p :: r =>
      match inlineData p with
      | Some d => d :: inline_blobs r
      | None => inline_blobs r
      end
  end.

(** The final prompt of a text-to-image request, for the value of the
    checked style radio; the empty value is the choice of no style. *)
Inductive final_prompt (userPrompt : jsstring) : jsstring -> jsstring -> Prop :=
| no_style : final_prompt userPrompt [] userPrompt
| with_style (tag : jsstring) :
    tag <> [] -> final_prompt userPrompt tag (tag ++ js ", " ++ userPrompt).

(** The world a [generate] body starts from: gallery emptied, loading. *)
Definition prepared (w : World) : World :=
  set_gallery (gallery_classList (classList_add loading))
    (set_gallery gallery_clear w).

Definition unload (w : World) : World :=
  set_gallery (gallery_classList (classList_remove loading)) w.

(** The world after one [appendImage], and after a run of them. *)
Definition append_one (dateNow : nat -> N) (url : jsstring) (w : World)
  : World :=
  snd (appendImage dateNow url w).

Definition append_all (dateNow : nat -> N) (urls : list jsstring) (w : World)
  : World :=
  fold_left (fun w' url => append_one dateNow url w') urls w.

(** The URLs a [forEach] appends when its callback appends at most one
    image per element. *)
Definition selected {A} (sel : A -> option jsstring) (l : list A)
  : list jsstring :=
  flat_map (fun x => match sel x with Some u => [u] | None => [] end) l.

Definition blob_url (d : Blob) : jsstring :=
  dataUrl (blob_mimeType d) (blob_data d).

Definition png_url (image : GeneratedImage) : jsstring :=
  js "data:image/png;base64," ++ imageBytes image.

(** The image-generation request: four images, PNG output. *)
Definition images_request (prompt negative : jsstring) (ratio : AspectRatio)
  : GenerateImagesParameters :=
  {| gi_model := textToImageModel;
     gi_prompt := prompt;
     numberOfImages := 4;
     outputMimeType := js "image/png";
     aspectRatio := ratio;
     negativePrompt := negative |}.

(** The world [generate] ends in after its body threw [e]. *)
Definition failed (e : JsError) (w : World) : World :=
  unload (emit (Alert genericFailure) (emit (ConsoleError e) w)).

(* ================================================================== *)
(** ** Sample pages and stub services *)
(* ================================================================== *)

Definition plain : Element := {| classList := [] |}.
Definition concealed : Element := {| classList := [hidden] |}.

Definition empty_slot : Slot :=
  {| imageBase64 := None; imageMimeType := None;
     uploadInput_value := [];
     previewContainer := Some concealed;
     preview_src := [];
     dropZoneWrapper := Some plain |}.

Definition png_slot (bytes : string) : Slot :=
  {| imageBase64 := Some (js bytes); imageMimeType := Some (js "image/png");
     uploadInput_value := js "photo.png";
     previewContainer := Some plain;
     preview_src := dataUrl (js "image/png") (js bytes);
     dropZoneWrapper := Some concealed |}.

Definition old_entry : ImageContainer :=
  image_container (js "data:image/png;base64,T0xE") (js "earlier") 7.

(** A page with every element in place, one earlier result in the
    gallery, and the given mode, prompt, style value and slots. *)
Definition page (mode : Mode) (prompt style : string) (s src tgt : Slot)
  : World :=
  {| single := s; source := src; target := tgt;
     imageGallery := Some {| gallery_el := plain; children := [old_entry] |};
     promptInput_value := js prompt;
     negativePromptInput_value := js "blurry";
     fieldsets :=
       {| promptFieldset := Some plain; imageUploadFieldset := Some plain;
          faceSwapFieldset := Some plain; negativePromptFieldset := Some plain;
          aspectRatioFieldset := Some plain; styleFieldset := Some plain |};
     checked_mode := Some mode;
     checked_imageStyle := Some (js style);
     checked_aspectRatio := Some Ratio_1_1;
     log := []; ticks := 0 |}.

Definition stub (c : Completion GenerateContentResponse)
    (i : Completion GenerateImagesResponse) : Remote :=
  {| generateContent := fun _ => c; generateImages := fun _ => i |}.

Definition clock (n : nat) : N := 1700000000000 + N.of_nat n.

Definition image_part (mime bytes : string) : Part :=
  {| inlineData := Some {| blob_data := js bytes; blob_mimeType := js mime |};
     part_text := None |}.
Definition text_part (t : string) : Part :=
  {| inlineData := None; part_text := Some (js t) |}.

Definition response_with (ps : list Part) : GenerateContentResponse :=
  {| candidates := Some [{| content := Some {| parts := Some ps |} |}] |}.

Definition two_images : GenerateContentResponse :=
  response_with [image_part "image/png" "QUJD"; text_part "done";
                 image_part "image/jpeg" "REVG"].

Definition no_candidates : GenerateContentResponse :=
  {| candidates := Some [] |}.

Definition four_images : GenerateImagesResponse :=
  {| generatedImages :=
       [{| imageBytes := js "AAAA" |}; {| imageBytes := js "BBBB" |};
        {| imageBytes := js "CCCC" |}; {| imageBytes := js "DDDD" |}] |}.

Definition offline : Remote :=
  stub (Throw (ApiError (js "fetch failed")))
       (Throw (ApiError (js "fetch failed"))).

Definition text_file : File :=
  {| file_type := js "text/plain"; file_read := Loaded (js "data:text/plain;base64,aGk=") |}.
Definition png_file : File :=
  {| file_type := js "image/png"; file_read := Loaded (js "data:image/png;base64,QUJD") |}.

(* ================================================================== *)
(** ** Listeners and initialisation *)
(* ================================================================== *)

Definition defaultImagenPrompt : jsstring :=
  js "Editorial wildlife photograph: a sleek black panther standing regally on a reflective salt flat at dusk, wearing a dramatic, sculptural couture gown inspired by organic forms. The landscape is vast and otherworldly but grounded in reality, with subtle shimmering textures and a warm, golden-hour glow. Captured with a cinematic 35mm lens, shallow depth of field, natural shadows, and authentic fur and fabric textures"
  ++ [226; 8364; 8221]%N
  ++ js "evoking a high-fashion magazine cover with a surreal, yet believable, atmosphere.".

(** Lines 393-394: the default prompt, then the text-to-image layout. *)
Definition init : M unit :=
  modify (fun w => set_prompts defaultImagenPrompt (negativePromptInput_value w) w) ;;
  updateUiForMode TextToImage.

Inductive SlotId := SingleSlot | SourceSlot | TargetSlot.

Definition slot_of (s : SlotId) (w : World) : Slot :=
  match s with
  | SingleSlot => single w
  | SourceSlot => source w
  | TargetSlot => target w
  end.

(** The file handler and the remove function wired to each slot. *)
Definition fileHandler (s : SlotId) : File -> M unit :=
  match s with
  | SingleSlot => handleSingleFile
  | SourceSlot => handleSourceFile
  | TargetSlot => handleTargetFile
  end.

Definition removeImage (s : SlotId) : M unit :=
  match s with
  | SingleSlot => removeSingleUploadedImage
  | SourceSlot => removeSourceImage
  | TargetSlot => removeTargetImage
  end.

(** The page around the world of [generate]: the three drop zones
    ([dropZone], [sourceDropZone], [targetDropZone]), each possibly
    missing. *)
Record Page := {
  world : World;
  dropZone : option Element;
  sourceDropZone : option Element;
  targetDropZone : option Element
}.

Definition zone_of (s : SlotId) (p : Page) : option Element :=
  match s with
  | SingleSlot => dropZone p
  | SourceSlot => sourceDropZone p
  | TargetSlot => targetDropZone p
  end.

Definition on_zone (s : SlotId) (f : Element -> Element) (p : Page) : Page :=
  match s with
  | SingleSlot =>
      {| world := world p; dropZone := option_map f (dropZone p);
         sourceDropZone := sourceDropZone p;
         targetDropZone := targetDropZone p |}
  | SourceSlot =>
      {| world := world p; dropZone := dropZone p;
         sourceDropZone := option_map f (sourceDropZone p);
         targetDropZone := targetDropZone p |}
  | TargetSlot =>
      {| world := world p; dropZone := dropZone p;
         sourceDropZone := sourceDropZone p;
         targetDropZone := option_map f (targetDropZone p) |}
  end.

(** A listener runs a function of the script and drops what it
    completes with: [generate()] and the file handlers are called
    without [await], the others neither return nor throw anything. *)
Definition in_world (m : M unit) (p : Page) : Page :=
  {| world := snd (m (world p)); dropZone := dropZone p;
     sourceDropZone := sourceDropZone p;
     targetDropZone := targetDropZone p |}.

(** [files?.[0]] of a file input, [dataTransfer?.files[0]] of a drop. *)
Definition first_file (files : option (list File)) : option File :=
  match files with
  | Some (f :: _) => Some f
  | _ => None
  end.

Definition dragover : jsstring := js "dragover".

(** What the user can do to the page, one constructor per listener of
    lines 346-390; a slot names the input, button or zone concerned. *)
Inductive UserEvent :=
| Submit
| ClearClick
| ModeChange (mode : Mode)
| InputChange (s : SlotId) (files : option (list File))
| RemoveClick (s : SlotId)
| DragOver (s : SlotId)
| DragLeave (s : SlotId)
| Drop (s : SlotId) (files : option (list File)).

Section Listeners.

Variable ai : Remote.
Variable dateNow : nat -> N.

(** The [drop] listener that [setupDragAndDrop] installs on a zone. *)
Definition drop_listener (s : SlotId) (files : option (list File))
    (p : Page) : Page :=
  let p' := on_zone s (classList_remove dragover) p in
  match first_file files with
  | Some f => in_world (fileHandler s f) p'
  | None => p'
  end.

(** The listener that answers each event.  [setupDragAndDrop] installs
    nothing on a missing zone, so drag events then change nothing. *)
Definition dispatch (ev : UserEvent) (p : Page) : Page :=
  match ev with
  | Submit => in_world (generate ai dateNow) p
  | ClearClick => in_world clearAll p
  | ModeChange mode => in_world (updateUiForMode mode) p
  | InputChange s files =>
      match first_file files with
      | Some f => in_world (fileHandler s f) p
      | None => p
      end
  | RemoveClick s => in_world (removeImage s) p
  | DragOver s => on_zone s (classList_add dragover) p
  | DragLeave s => on_zone s (classList_remove dragover) p
  | Drop s files =>
      match zone_of s p with
      | Some _ => drop_listener s files p
      | None => p
      end
  end.

Definition run (evs : list UserEvent) (p : Page) : Page :=
  fold_left (fun q ev => dispatch ev q) evs p.

(** The page once the script has loaded (lines 393-394). *)
Definition loaded (p : Page) : Page := in_world init p.

End Listeners.

(* ================================================================== *)
(** ** Further observations *)
(* ================================================================== *)

(** Everything of the world that is neither gallery, log nor clock. *)
Definition form_of (w : World) :=
  (single w, source w, target w,
   (promptInput_value w, negativePromptInput_value w),
   fieldsets w,
   (checked_mode w, checked_imageStyle w, checked_aspectRatio w)).

(** A slot as the user sees it: empty with the drop zone showing, or
    holding an image type with the preview showing. *)
Definition slot_ok (s : Slot) : Prop :=
  (imageBase64 s = None /\ imageMimeType s = None /\
   is_hidden (previewContainer s) /\ is_shown (dropZoneWrapper s))
  \/
  (exists m, imageMimeType s = Some m /\
             startsWith m (js "image/") = true /\
             is_shown (previewContainer s) /\ is_hidden (dropZoneWrapper s)).

Definition no_comma (s : jsstring) : bool :=
  forallb (fun c => negb (N.eqb c 44)) s.

(** The gallery children one cycle renders for some URLs: the prompt
    (or the fallback) as alternative text and one clock reading each. *)
Fixpoint rendered (dateNow : nat -> N) (value : jsstring) (t : nat)
    (urls : list jsstring) : list ImageContainer :=
  match urls with
  | [] => []
  | u :: r => image_container u value (dateNow t) :: rendered dateNow value (S t) r
  end.

(** Whether a submission reaches its remote call: the validation, and
    for text to image the two radios the request reads. *)
Definition dispatches (mode : Mode) (w : World) : bool :=
  valid mode w &&
  match mode with
  | TextToImage =>
      match checked_imageStyle w, checked_aspectRatio w with
      | Some _, Some _ => true
      | _, _ => false
      end
  | _ => true
  end.

(** A computation that leaves the form as it found it. *)
Definition keeps_form {A} (m : M A) : Prop :=
  forall w, form_of (snd (m w)) = form_of w.

Definition slots_ok (w : World) : Prop :=
  slot_ok (single w) /\ slot_ok (source w) /\ slot_ok (target w).

(** Whether a visit to [other] empties the slots that [mode] submits. *)
Definition visit_clears (mode other : Mode) : bool :=
  match mode, other with
  | FaceSwap, (TextToImage | ImageEdit | ImageUpscale) => true
  | (ImageEdit | ImageUpscale), (TextToImage | FaceSwap) => true
  | _, _ => false
  end.

Unset Implicit Arguments.

(* ================================================================== *)
(** ** Class lists *)
(* ================================================================== *)

Lemma str_eqb_refl (s : jsstring) : str_eqb s s = true.
Proof.
  induction s as [|c s IH]; simpl; [reflexivity|].
  now rewrite N.eqb_refl, IH.
Qed.

Lemma contains_add (c : jsstring) (e : Element) :
  contains c (classList_add c e) = true.
Proof.
  unfold classList_add.
  destruct (contains c e) eqn:E; [exact E|].
  unfold contains; simpl.
  rewrite existsb_app; simpl.
  now rewrite str_eqb_refl, orb_true_r.
Qed.

Lemma contains_remove (c : jsstring) (e : Element) :
  contains c (classList_remove c e) = false.
Proof.
  unfold contains, classList_remove; simpl.
  induction (classList e) as [|x l IH]; simpl; [reflexivity|].
  destruct (str_eqb c x) eqn:E; simpl; [exact IH|].
  now rewrite E, IH.
Qed.

Lemma hide_is_hidden (o : option Element) : is_hidden (hide o).
Proof.
  intros e He. destruct o as [x|]; simpl in He; [|discriminate].
  injection He as <-. apply contains_add.
Qed.

Lemma show_is_shown (o : option Element) : is_shown (show o).
Proof.
  intros e He. destruct o as [x|]; simpl in He; [|discriminate].
  injection He as <-. apply contains_remove.
Qed.

Lemma clear_slot_cleared (s : Slot) : cleared (clear_slot s).
Proof.
  constructor; simpl; try reflexivity.
  - apply hide_is_hidden.
  - apply show_is_shown.
Qed.

Lemma is_loading_unload (w : World) : is_loading (unload w) = false.
Proof.
  unfold is_loading, unload; simpl.
  destruct (imageGallery w) as [g|]; simpl; [|reflexivity].
  apply contains_remove.
Qed.

(* ================================================================== *)
(** ** Mode switches, clear-all and rejected files *)
(* ================================================================== *)

(** C4: a switch to FaceSwap clears the single-image slot and keeps
    source and target as they are; a switch to ImageEdit or ImageUpscale
    clears source and target and keeps the single-image slot; a switch
    to TextToImage clears all three slots. *)
Theorem mode_switch_clears_slots (mode : Mode) (w : World) :
  exists w',
    updateUiForMode mode w = (Normal tt, w') /\
    match mode with
    | FaceSwap =>
        cleared (single w') /\ source w' = source w /\ target w' = target w
    | ImageEdit | ImageUpscale =>
        cleared (source w') /\ cleared (target w') /\ single w' = single w
    | TextToImage =>
        cleared (single w') /\ cleared (source w') /\ cleared (target w')
    end.
Proof.
  destruct mode; eexists; (split; [reflexivity|]); simpl;
    repeat split; try apply clear_slot_cleared.
Qed.

(** C8: clear-all empties the gallery, resets the three upload slots
    (image and MIME type absent, file input cleared, drop zone shown,
    preview hidden) and sets prompt and negative prompt to the empty
    string. *)
Theorem clearAll_resets_everything (w : World) :
  exists w',
    clearAll w = (Normal tt, w') /\
    gallery_children w' = [] /\
    cleared (single w') /\ cleared (source w') /\ cleared (target w') /\
    promptInput_value w' = [] /\ negativePromptInput_value w' = [].
Proof.
  eexists; split; [reflexivity|]; simpl.
  repeat split; try apply clear_slot_cleared.
  unfold gallery_children; simpl.
  now destruct (imageGallery w).
Qed.

(** C5: a file whose declared type does not start with [image/] makes
    the encoder fail with its not-an-image error; the handler of each
    slot then shows that message and changes nothing else: stored
    image, MIME type, preview and drop zone stay as they were. *)
Theorem non_image_file_rejected (file : File) (w : World) :
  startsWith (file_type file) (js "image/") = false ->
  fileToBase64 file = Throw (Error (js "File is not an image.")) /\
  let shown := emit (Alert (js "File is not an image.")) w in
  handleSingleFile file w = (Normal tt, shown) /\
  handleSourceFile file w = (Normal tt, shown) /\
  handleTargetFile file w = (Normal tt, shown) /\
  single shown = single w /\ source shown = source w /\
  target shown = target w.
Proof.
  intros H.
  assert (E : fileToBase64 file = Throw (Error (js "File is not an image."))).
  { unfold fileToBase64. now rewrite H. }
  split; [exact E|].
  unfold handleSingleFile, handleSourceFile, handleTargetFile, handleFile,
    try_catch, bind, await.
  rewrite E. repeat split.
Qed.

Lemma non_image_file_rejected_witness :
  handleSingleFile text_file (page ImageEdit "" "" (png_slot "SU1H") empty_slot empty_slot)
  = (Normal tt,
     emit (Alert (js "File is not an image."))
       (page ImageEdit "" "" (png_slot "SU1H") empty_slot empty_slot)).
Proof.
  apply (non_image_file_rejected text_file
           (page ImageEdit "" "" (png_slot "SU1H") empty_slot empty_slot)).
  reflexivity.
Defined.

(* ================================================================== *)
(** ** Appending to the gallery *)
(* ================================================================== *)

Section Facts.

Variable ai : Remote.
Variable dateNow : nat -> N.

Lemma appendImage_run (url : jsstring) (w : World) :
  appendImage dateNow url w = (Normal tt, append_one dateNow url w).
Proof.
  unfold append_one, appendImage, bind, gets.
  destruct (imageGallery w); reflexivity.
Qed.

Lemma log_append_one (url : jsstring) (w : World) :
  log (append_one dateNow url w) = log w.
Proof.
  unfold append_one, appendImage, bind, gets.
  destruct (imageGallery w); reflexivity.
Qed.

Lemma gallery_append_one (url : jsstring) (w : World) (g : Gallery) :
  imageGallery w = Some g ->
  exists c,
    imageGallery (append_one dateNow url w) = Some (gallery_appendChild c g)
    /\ img_src c = url /\ link_href c = url.
Proof.
  intros Hg.
  unfold append_one, appendImage, bind, gets.
  rewrite Hg; simpl. rewrite Hg; simpl.
  eexists; split; [reflexivity|]. split; reflexivity.
Qed.

Lemma log_append_all (urls : list jsstring) (w : World) :
  log (append_all dateNow urls w) = log w.
Proof.
  revert w; induction urls as [|u urls IH]; intros w; simpl; [reflexivity|].
  unfold append_all in *; simpl.
  now rewrite IH, log_append_one.
Qed.

Lemma gallery_append_all (urls : list jsstring) (w : World) (g : Gallery) :
  imageGallery w = Some g ->
  exists cs,
    imageGallery (append_all dateNow urls w)
    = Some {| gallery_el := gallery_el g; children := children g ++ cs |}
    /\ map img_src cs = urls /\ map link_href cs = urls.
Proof.
  revert w g; induction urls as [|u urls IH]; intros w g Hg.
  - exists []; simpl. rewrite app_nil_r. destruct g; auto.
  - destruct (gallery_append_one u w g Hg) as (c & Hc & Hs & Hh).
    destruct (IH _ _ Hc) as (cs & Hcs & Hss & Hhs).
    exists (c :: cs). unfold append_all in *; simpl.
    rewrite Hcs; simpl. rewrite <- app_assoc; simpl.
    repeat split; congruence.
Qed.

(** A [forEach] whose callback appends the selected URL, if any. *)
Lemma forEach_selected {A} (step : A -> M unit) (sel : A -> option jsstring) :
  (forall x w, step x w = match sel x with
                          | Some u => appendImage dateNow u w
                          | None => (Normal tt, w)
                          end) ->
  forall l w,
    forEach l step w = (Normal tt, append_all dateNow (selected sel l) w).
Proof.
  intros Hstep l; induction l as [|x l IH]; intros w; [reflexivity|].
  simpl. unfold bind. rewrite Hstep.
  unfold selected; simpl.
  destruct (sel x) as [u|]; simpl.
  - rewrite appendImage_run, IH. reflexivity.
  - apply IH.
Qed.

Lemma selected_parts (ps : list Part) :
  selected (fun p => option_map blob_url (inlineData p)) ps
  = map blob_url (inline_blobs ps).
Proof.
  induction ps as [|p ps IH]; [reflexivity|].
  unfold selected in *; simpl.
  destruct (inlineData p); simpl; now rewrite IH.
Qed.

Lemma selected_all {A} (f : A -> jsstring) (l : list A) :
  selected (fun x => Some (f x)) l = map f l.
Proof.
  induction l as [|x l IH]; [reflexivity|].
  unfold selected in *; simpl. now rewrite IH.
Qed.

Lemma extract_run (response : GenerateContentResponse) (w : World) :
  extract dateNow response w =
  match first_parts response with
  | Some ps =>
      (Normal tt, append_all dateNow (map blob_url (inline_blobs ps)) w)
  | None => (Throw TypeError, w)
  end.
Proof.
  unfold extract, first_parts, bind, deref, throw, ret.
  destruct (candidates response) as [[|c cs]|]; simpl; try reflexivity.
  destruct (content c) as [ct|]; simpl; try reflexivity.
  destruct (parts ct) as [ps|]; simpl; try reflexivity.
  rewrite <- selected_parts.
  apply forEach_selected.
  intros p w'. destruct (inlineData p); reflexivity.
Qed.

Lemma generateContent_run (req : GenerateContentParameters) (w : World) :
  models_generateContent ai req w =
  (generateContent ai req, emit (CallGenerateContent req) w).
Proof.
  unfold models_generateContent, bind, modify, await, ret, throw.
  destruct (generateContent ai req); reflexivity.
Qed.

Lemma generateImages_run (req : GenerateImagesParameters) (w : World) :
  models_generateImages ai req w =
  (generateImages ai req, emit (CallGenerateImages req) w).
Proof.
  unfold models_generateImages, bind, modify, await, ret, throw.
  destruct (generateImages ai req); reflexivity.
Qed.

(* ================================================================ *)
(** ** The shape of a generation cycle *)
(* ================================================================ *)

(** Past its two guards, [generate] runs its body on the prepared
    world and always completes normally, with the indicator removed
    last. *)
Lemma generate_outcome (w : World) (g : Gallery) (mode : Mode) :
  imageGallery w = Some g ->
  checked_mode w = Some mode ->
  generate ai dateNow w =
  match generate_body ai dateNow mode (prepared w) with
  | (Normal _, w1) => (Normal tt, unload w1)
  | (Throw e, w1) => (Normal tt, failed e w1)
  end.
Proof.
  intros Hg Hm.
  unfold generate, bind, gets. rewrite Hg, Hm.
  unfold deref, ret, modify, try_catch_finally, remove_loading, bind,
    console_error, alert, modify.
  fold (prepared w).
  destruct (generate_body ai dateNow mode (prepared w)) as [[[]|e] w1];
    reflexivity.
Qed.

(** A failed validation: one alert, indicator removed, nothing else. *)
Lemma body_abort (mode : Mode) (w : World) :
  valid mode w = false ->
  exists msg,
    generate_body ai dateNow mode w = (Normal tt, unload (emit (Alert msg) w)).
Proof.
  unfold valid, nonblank; intros H.
  destruct mode; unfold generate_body, bind, gets.
  - destruct (trim (promptInput_value w)); [|discriminate].
    eexists; reflexivity.
  - destruct (truthy (uploadedImageBase64 w)); simpl;
      [|eexists; reflexivity].
    destruct (truthy (uploadedImageMimeType w)); simpl in *;
      [|eexists; reflexivity].
    destruct (trim (promptInput_value w)); [|discriminate].
    eexists; reflexivity.
  - destruct (truthy (uploadedImageBase64 w)); simpl;
      [|eexists; reflexivity].
    destruct (truthy (uploadedImageMimeType w)); simpl in *;
      [discriminate|eexists; reflexivity].
  - destruct (truthy (sourceImageBase64 w)); simpl;
      [|eexists; reflexivity].
    destruct (truthy (targetImageBase64 w)); simpl in *;
      [discriminate|eexists; reflexivity].
Qed.

(** A content-edit mode that passes validation sends its request and
    extracts from the answer. *)
Lemma body_content (mode : Mode) (w : World) :
  content_mode mode = true ->
  valid mode w = true ->
  generate_body ai dateNow mode w =
  match generateContent ai (content_request mode w) with
  | Normal response =>
      extract dateNow response
        (emit (CallGenerateContent (content_request mode w)) w)
  | Throw e =>
      (Throw e, emit (CallGenerateContent (content_request mode w)) w)
  end.
Proof.
  unfold valid, nonblank; intros Hc H.
  destruct mode; try discriminate Hc;
    unfold generate_body, edit_call, bind, gets.
  - apply andb_prop in H as [H Hp]. apply andb_prop in H as [Hb Hm].
    rewrite Hb, Hm; simpl.
    destruct (trim (promptInput_value w)) eqn:E; [discriminate|].
    rewrite generateContent_run. unfold content_request; cbv beta iota.
    destruct (generateContent ai _); reflexivity.
  - apply andb_prop in H as [Hb Hm].
    rewrite Hb, Hm; simpl.
    rewrite generateContent_run. unfold content_request; cbv beta iota.
    destruct (generateContent ai _); reflexivity.
  - apply andb_prop in H as [Hb Hm].
    rewrite Hb, Hm; simpl.
    rewrite generateContent_run. unfold content_request; cbv beta iota.
    destruct (generateContent ai _); reflexivity.
Qed.

(** Text-to-image past its validation: the two radio reads, then the
    request with the final prompt, then one entry per image. *)
Lemma body_images (w : World) (style final : jsstring) (ratio : AspectRatio) :
  valid TextToImage w = true ->
  checked_imageStyle w = Some style ->
  checked_aspectRatio w = Some ratio ->
  final_prompt (promptInput_value w) style final ->
  let req := images_request final (negativePromptInput_value w) ratio in
  generate_body ai dateNow TextToImage w =
  match generateImages ai req with
  | Normal response =>
      (Normal tt,
       append_all dateNow (map png_url (generatedImages response))
         (emit (CallGenerateImages req) w))
  | Throw e => (Throw e, emit (CallGenerateImages req) w)
  end.
Proof.
  intros H Hs Hr Hf req. unfold valid, nonblank in H.
  unfold generate_body, bind, gets.
  destruct (trim (promptInput_value w)) eqn:E; [discriminate|].
  rewrite Hs; cbv beta iota delta [deref ret].
  rewrite Hr; cbv beta iota delta [deref ret].
  assert (Hreq :
    {| gi_model := textToImageModel;
       gi_prompt := match style with
                    | [] => promptInput_value w
                    | _ :: _ => style ++ js ", " ++ promptInput_value w
                    end;
       numberOfImages := 4;
       outputMimeType := js "image/png";
       aspectRatio := ratio;
       negativePrompt := negativePromptInput_value w |} = req).
  { unfold req, images_request. f_equal.
    destruct Hf as [|tag Ht]; [reflexivity|].
    destruct tag; [contradiction|reflexivity]. }
  rewrite Hreq, generateImages_run.
  destruct (generateImages ai req) as [response|e]; [|reflexivity].
  rewrite <- selected_all.
  apply forEach_selected. reflexivity.
Qed.

(** Without a checked style or ratio radio the body throws before
    any request is made. *)
Lemma body_images_unchecked (w : World) :
  valid TextToImage w = true ->
  checked_imageStyle w = None \/ checked_aspectRatio w = None ->
  generate_body ai dateNow TextToImage w = (Throw TypeError, w).
Proof.
  unfold valid, nonblank; intros H Hn.
  unfold generate_body, bind, gets.
  destruct (trim (promptInput_value w)) eqn:E; [discriminate|].
  destruct (checked_imageStyle w); [|reflexivity].
  destruct Hn as [Hn|Hn]; [discriminate|].
  cbv beta iota delta [deref ret].
  rewrite Hn. reflexivity.
Qed.

(* ================================================================ *)
(** ** What the worlds of a cycle look like *)
(* ================================================================ *)

Lemma log_failed (e : JsError) (w : World) :
  log (failed e w) = log w ++ [ConsoleError e; Alert genericFailure].
Proof. unfold failed; simpl. now rewrite <- app_assoc. Qed.

Lemma is_loading_failed (e : JsError) (w : World) :
  is_loading (failed e w) = false.
Proof. apply is_loading_unload. Qed.

Lemma children_unload (w : World) :
  gallery_children (unload w) = gallery_children w.
Proof.
  unfold gallery_children, unload; simpl. now destruct (imageGallery w).
Qed.

Lemma children_failed (e : JsError) (w : World) :
  gallery_children (failed e w) = gallery_children w.
Proof. unfold failed. now rewrite children_unload. Qed.

Lemma children_prepared (w : World) : gallery_children (prepared w) = [].
Proof.
  unfold gallery_children, prepared; simpl. now destruct (imageGallery w).
Qed.

Lemma gallery_prepared (w : World) (g : Gallery) (c : Event) :
  imageGallery w = Some g ->
  imageGallery (emit c (prepared w))
  = Some {| gallery_el := classList_add loading (gallery_el g);
            children := [] |}.
Proof. intros Hg; simpl. now rewrite Hg. Qed.

Lemma children_appended (urls : list jsstring) (w : World) (g : Gallery)
    (c : Event) :
  imageGallery w = Some g ->
  let w' := append_all dateNow urls (emit c (prepared w)) in
  map img_src (gallery_children w') = urls /\
  map link_href (gallery_children w') = urls.
Proof.
  intros Hg w'.
  destruct (gallery_append_all urls _ _ (gallery_prepared w g c Hg))
    as (cs & Hcs & Hs & Hh).
  unfold gallery_children, w'. rewrite Hcs; simpl. auto.
Qed.

Lemma calls_snoc_alert (l : list Event) (msg : jsstring) :
  remote_calls (l ++ [Alert msg]) = remote_calls l.
Proof. unfold remote_calls. rewrite filter_app; simpl. apply app_nil_r. Qed.

Lemma violated_invalid (mode : Mode) (w : World) :
  precondition_violated mode w -> valid mode w = false.
Proof.
  unfold precondition_violated, valid, blank, slot_empty, nonblank,
    uploadedImageBase64, sourceImageBase64, targetImageBase64.
  destruct mode.
  - now intros ->.
  - intros [-> | ->]; [apply andb_false_r | reflexivity].
  - now intros ->.
  - intros [-> | ->]; [reflexivity | apply andb_false_r].
Qed.

Lemma final_prompt_total (userPrompt style : jsstring) :
  exists final, final_prompt userPrompt style final.
Proof.
  destruct style as [|c style].
  - eexists; constructor.
  - eexists; constructor. discriminate.
Qed.

(** The responses whose first candidate offers no parts to read. *)
Lemma first_parts_missing (r : GenerateContentResponse) :
  first_parts r = None <->
  candidates r = None \/ candidates r = Some [] \/
  exists c cs, candidates r = Some (c :: cs) /\
    (content c = None \/
     exists ct, content c = Some ct /\ parts ct = None).
Proof.
  unfold first_parts. split.
  - destruct (candidates r) as [[|c cs]|]; auto.
    intros H. right; right. exists c, cs. split; [reflexivity|].
    destruct (content c) as [ct|]; auto.
    right. exists ct. auto.
  - intros [-> | [-> | (c & cs & -> & [-> | (ct & -> & ->)])]]; reflexivity.
Qed.

(** A whole cycle whose validation fails. *)
Lemma aborted_cycle (w : World) (g : Gallery) (mode : Mode) :
  imageGallery w = Some g ->
  checked_mode w = Some mode ->
  valid mode w = false ->
  exists msg,
    generate ai dateNow w
    = (Normal tt, unload (unload (emit (Alert msg) (prepared w)))).
Proof.
  intros Hg Hm Hv.
  destruct (body_abort mode (prepared w)) as [msg Hb].
  { rewrite <- Hv. destruct mode; reflexivity. }
  exists msg. now rewrite (generate_outcome w g mode Hg Hm), Hb.
Qed.

(** A whole content-edit cycle that passes validation. *)
Lemma content_cycle (w : World) (g : Gallery) (mode : Mode) :
  imageGallery w = Some g ->
  checked_mode w = Some mode ->
  content_mode mode = true ->
  valid mode w = true ->
  let sent := emit (CallGenerateContent (content_request mode w)) (prepared w) in
  generate ai dateNow w =
  (Normal tt,
   match generateContent ai (content_request mode w) with
   | Throw e => failed e sent
   | Normal response =>
       match first_parts response with
       | None => failed TypeError sent
       | Some ps =>
           unload (append_all dateNow (map blob_url (inline_blobs ps)) sent)
       end
   end).
Proof.
  intros Hg Hm Hc Hv sent.
  rewrite (generate_outcome w g mode Hg Hm), body_content; trivial.
  change (content_request mode (prepared w)) with (content_request mode w).
  fold sent.
  destruct (generateContent ai (content_request mode w)) as [r|e];
    [|reflexivity].
  rewrite extract_run. destruct (first_parts r); reflexivity.
Qed.

(** A whole text-to-image cycle that passes validation and finds its
    radios checked. *)
Lemma images_cycle (w : World) (g : Gallery) (style final : jsstring)
    (ratio : AspectRatio) :
  imageGallery w = Some g ->
  checked_mode w = Some TextToImage ->
  valid TextToImage w = true ->
  checked_imageStyle w = Some style ->
  checked_aspectRatio w = Some ratio ->
  final_prompt (promptInput_value w) style final ->
  let req := images_request final (negativePromptInput_value w) ratio in
  let sent := emit (CallGenerateImages req) (prepared w) in
  generate ai dateNow w =
  (Normal tt,
   match generateImages ai req with
   | Throw e => failed e sent
   | Normal response =>
       unload (append_all dateNow (map png_url (generatedImages response)) sent)
   end).
Proof.
  intros Hg Hm Hv Hs Hr Hf req sent.
  rewrite (generate_outcome w g TextToImage Hg Hm).
  rewrite (body_images (prepared w) style final ratio); trivial.
  change (images_request final (negativePromptInput_value (prepared w)) ratio)
    with req.
  fold sent. destruct (generateImages ai req); reflexivity.
Qed.

Lemma calls_snoc_call (l tail : list Event) (c : Event) :
  is_call c = true ->
  remote_calls tail = [] ->
  remote_calls (l ++ c :: tail) = remote_calls l ++ [c].
Proof.
  intros Hc Ht. unfold remote_calls in *.
  rewrite filter_app; simpl. now rewrite Hc, Ht.
Qed.

(** The events of a content-edit cycle past validation: the call,
    then nothing more or the report of one failure; a rejected call is
    reported with the rejection itself. *)
Lemma content_cycle_log (w : World) (g : Gallery) (mode : Mode) :
  imageGallery w = Some g ->
  checked_mode w = Some mode ->
  content_mode mode = true ->
  valid mode w = true ->
  exists w' tail,
    generate ai dateNow w = (Normal tt, w') /\
    log w' = log w ++ CallGenerateContent (content_request mode w) :: tail /\
    remote_calls tail = [] /\
    (forall e, generateContent ai (content_request mode w) = Throw e ->
               tail = [ConsoleError e; Alert genericFailure]) /\
    is_loading w' = false.
Proof.
  intros Hg Hm Hc Hv.
  pose proof (content_cycle w g mode Hg Hm Hc Hv) as H; cbv zeta in H.
  destruct (generateContent ai (content_request mode w)) as [r|e].
  - destruct (first_parts r) as [ps|].
    + eexists; exists []; split; [exact H|].
      repeat split; try discriminate.
      * change (log (unload ?x)) with (log x).
        rewrite log_append_all; simpl. reflexivity.
      * apply is_loading_unload.
    + eexists; exists [ConsoleError TypeError; Alert genericFailure].
      split; [exact H|].
      repeat split; try discriminate.
      * rewrite log_failed; simpl. now rewrite <- app_assoc.
      * apply is_loading_failed.
  - eexists; exists [ConsoleError e; Alert genericFailure].
    split; [exact H|].
    repeat split.
    + rewrite log_failed; simpl. now rewrite <- app_assoc.
    + intros e' [= <-]. reflexivity.
    + apply is_loading_failed.
Qed.

Lemma images_cycle_log (w : World) (g : Gallery) (style final : jsstring)
    (ratio : AspectRatio) :
  imageGallery w = Some g ->
  checked_mode w = Some TextToImage ->
  valid TextToImage w = true ->
  checked_imageStyle w = Some style ->
  checked_aspectRatio w = Some ratio ->
  final_prompt (promptInput_value w) style final ->
  let req := images_request final (negativePromptInput_value w) ratio in
  exists w' tail,
    generate ai dateNow w = (Normal tt, w') /\
    log w' = log w ++ CallGenerateImages req :: tail /\
    remote_calls tail = [] /\
    (forall e, generateImages ai req = Throw e ->
               tail = [ConsoleError e; Alert genericFailure]) /\
    is_loading w' = false.
Proof.
  intros Hg Hm Hv Hs Hr Hf req.
  pose proof (images_cycle w g style final ratio Hg Hm Hv Hs Hr Hf) as H;
    cbv zeta in H; fold req in H.
  destruct (generateImages ai req) as [r|e].
  - eexists; exists []; split; [exact H|].
    repeat split; try discriminate.
    + change (log (unload ?x)) with (log x).
      rewrite log_append_all; simpl. reflexivity.
    + apply is_loading_unload.
  - eexists; exists [ConsoleError e; Alert genericFailure].
    split; [exact H|].
    repeat split.
    + rewrite log_failed; simpl. now rewrite <- app_assoc.
    + intros e' [= <-]. reflexivity.
    + apply is_loading_failed.
Qed.

(** A text-to-image cycle that misses a checked radio. *)
Lemma unchecked_cycle (w : World) (g : Gallery) :
  imageGallery w = Some g ->
  checked_mode w = Some TextToImage ->
  valid TextToImage w = true ->
  checked_imageStyle w = None \/ checked_aspectRatio w = None ->
  generate ai dateNow w = (Normal tt, failed TypeError (prepared w)).
Proof.
  intros Hg Hm Hv Hn.
  rewrite (generate_outcome w g TextToImage Hg Hm).
  now rewrite (body_images_unchecked (prepared w) Hv Hn).
Qed.

End Facts.

(* ================================================================== *)
(** ** Validation *)
(* ================================================================== *)

(** C1: on a page with its gallery, whatever the selected mode, a
    violated precondition (blank prompt in TextToImage or ImageEdit, no
    image in the single slot in ImageEdit or ImageUpscale, an empty
    source or target slot in FaceSwap) makes [generate] return normally
    after exactly one event, an alert: no remote call is made and the
    loading indicator is off. *)
Theorem invalid_submission_aborts (ai : Remote) (dateNow : nat -> N)
    (w : World) (g : Gallery) (mode : Mode) :
  imageGallery w = Some g ->
  checked_mode w = Some mode ->
  precondition_violated mode w ->
  exists msg w',
    generate ai dateNow w = (Normal tt, w') /\
    log w' = log w ++ [Alert msg] /\
    remote_calls (log w') = remote_calls (log w) /\
    is_loading w' = false.
Proof.
  intros Hg Hm Hv. apply violated_invalid in Hv.
  destruct (aborted_cycle ai dateNow w g mode Hg Hm Hv) as [msg H].
  exists msg; eexists; split; [exact H|].
  split; [reflexivity|]. split.
  - exact (calls_snoc_alert (log w) msg).
  - apply is_loading_unload.
Qed.

Lemma invalid_submission_aborts_witness :
  exists msg w',
    generate (stub (Normal two_images) (Normal four_images)) clock
      (page FaceSwap "swap" "" empty_slot (png_slot "U1JD") empty_slot)
    = (Normal tt, w') /\
    log w' = [] ++ [Alert msg] /\
    remote_calls (log w') = [] /\
    is_loading w' = false.
Proof.
  apply (invalid_submission_aborts
           (stub (Normal two_images) (Normal four_images)) clock
           (page FaceSwap "swap" "" empty_slot (png_slot "U1JD") empty_slot)
           {| gallery_el := plain; children := [old_entry] |} FaceSwap).
  - reflexivity.
  - reflexivity.
  - right. reflexivity.
Defined.

(** C9: [generate] empties the gallery before it looks at any
    precondition: the cycle runs exactly as it would from an empty
    gallery, and a submission that fails validation ends with an empty
    gallery and without a remote call, whatever was rendered before. *)
Theorem gallery_emptied_before_validation (ai : Remote) (dateNow : nat -> N)
    (w : World) (g : Gallery) (mode : Mode) :
  imageGallery w = Some g ->
  checked_mode w = Some mode ->
  generate ai dateNow w = generate ai dateNow (set_gallery gallery_clear w) /\
  (precondition_violated mode w ->
   gallery_children (snd (generate ai dateNow w)) = [] /\
   remote_calls (log (snd (generate ai dateNow w))) = remote_calls (log w)).
Proof.
  intros Hg Hm. split.
  - rewrite (generate_outcome ai dateNow w g mode Hg Hm).
    rewrite (generate_outcome ai dateNow (set_gallery gallery_clear w)
               (gallery_clear g) mode).
    + replace (prepared (set_gallery gallery_clear w)) with (prepared w);
        [reflexivity|].
      unfold prepared, set_gallery; simpl. rewrite Hg. reflexivity.
    + simpl. now rewrite Hg.
    + exact Hm.
  - intros Hv. apply violated_invalid in Hv.
    destruct (aborted_cycle ai dateNow w g mode Hg Hm Hv) as [msg H].
    rewrite H; simpl snd. split.
    + rewrite !children_unload. apply children_prepared.
    + exact (calls_snoc_alert (log w) msg).
Qed.

Lemma gallery_emptied_before_validation_witness :
  gallery_children
    (page TextToImage "   " "" empty_slot empty_slot empty_slot) = [old_entry] /\
  gallery_children
    (snd (generate offline clock
            (page TextToImage "   " "" empty_slot empty_slot empty_slot))) = [].
Proof.
  split; [reflexivity|].
  apply (gallery_emptied_before_validation offline clock
           (page TextToImage "   " "" empty_slot empty_slot empty_slot)
           {| gallery_el := plain; children := [old_entry] |} TextToImage
           eq_refl eq_refl).
  reflexivity.
Defined.

(* ================================================================== *)
(** ** Requests and extraction *)
(* ================================================================== *)

(** C2: in ImageEdit, ImageUpscale and FaceSwap, when the service
    answers with a response whose first candidate has parts, the gallery
    ends with exactly one entry per part that carries inline data, in
    the order of the parts, each showing and linking the [data:] URL
    made of that part's MIME type and base64 bytes; parts without
    inline data leave no entry. *)
Theorem content_response_fills_gallery (ai : Remote) (dateNow : nat -> N)
    (w : World) (g : Gallery) (mode : Mode)
    (response : GenerateContentResponse) (ps : list Part) :
  imageGallery w = Some g ->
  checked_mode w = Some mode ->
  content_mode mode = true ->
  valid mode w = true ->
  generateContent ai (content_request mode w) = Normal response ->
  first_parts response = Some ps ->
  exists w',
    generate ai dateNow w = (Normal tt, w') /\
    map img_src (gallery_children w')
    = map (fun d => dataUrl (blob_mimeType d) (blob_data d)) (inline_blobs ps) /\
    map link_href (gallery_children w')
    = map (fun d => dataUrl (blob_mimeType d) (blob_data d)) (inline_blobs ps).
Proof.
  intros Hg Hm Hc Hv Hr Hp.
  pose proof (content_cycle ai dateNow w g mode Hg Hm Hc Hv) as H.
  cbv zeta in H. rewrite Hr, Hp in H.
  eexists; split; [exact H|].
  rewrite children_unload.
  apply (children_appended dateNow (map blob_url (inline_blobs ps)) w g _ Hg).
Qed.

Lemma content_response_fills_gallery_witness :
  exists w',
    generate (stub (Normal two_images) (Normal four_images)) clock
      (page ImageEdit "make the sky purple" "" (png_slot "SU1H")
         empty_slot empty_slot)
    = (Normal tt, w') /\
    map img_src (gallery_children w')
    = [js "data:image/png;base64,QUJD"; js "data:image/jpeg;base64,REVG"] /\
    map link_href (gallery_children w')
    = [js "data:image/png;base64,QUJD"; js "data:image/jpeg;base64,REVG"].
Proof.
  apply (content_response_fills_gallery
           (stub (Normal two_images) (Normal four_images)) clock
           (page ImageEdit "make the sky purple" "" (png_slot "SU1H")
              empty_slot empty_slot)
           {| gallery_el := plain; children := [old_entry] |} ImageEdit
           two_images
           [image_part "image/png" "QUJD"; text_part "done";
            image_part "image/jpeg" "REVG"]);
    reflexivity.
Defined.

(** C3: a TextToImage submission with a non-blank prompt sends one
    image-generation request whose prompt is the style tag, a comma and
    a space, then the user prompt when the checked style has a tag, and
    the user prompt verbatim when it has none, with four images and PNG
    output; each image of the answer becomes one
    [data:image/png;base64,] entry of the gallery, in order. *)
Theorem text_to_image_request (ai : Remote) (dateNow : nat -> N)
    (w : World) (g : Gallery) (style final : jsstring) (ratio : AspectRatio) :
  imageGallery w = Some g ->
  checked_mode w = Some TextToImage ->
  ~ blank (promptInput_value w) ->
  checked_imageStyle w = Some style ->
  checked_aspectRatio w = Some ratio ->
  final_prompt (promptInput_value w) style final ->
  let req :=
    {| gi_model := textToImageModel;
       gi_prompt := final;
       numberOfImages := 4;
       outputMimeType := js "image/png";
       aspectRatio := ratio;
       negativePrompt := negativePromptInput_value w |} in
  exists w',
    generate ai dateNow w = (Normal tt, w') /\
    remote_calls (log w') = remote_calls (log w) ++ [CallGenerateImages req] /\
    forall response,
      generateImages ai req = Normal response ->
      map img_src (gallery_children w')
      = map (fun image => js "data:image/png;base64," ++ imageBytes image)
          (generatedImages response) /\
      map link_href (gallery_children w')
      = map (fun image => js "data:image/png;base64," ++ imageBytes image)
          (generatedImages response).
Proof.
  intros Hg Hm Hb Hs Hr Hf req.
  assert (Hv : valid TextToImage w = true).
  { unfold valid, nonblank, blank in *.
    destruct (trim (promptInput_value w)); [contradiction|reflexivity]. }
  destruct (images_cycle_log ai dateNow w g style final ratio
              Hg Hm Hv Hs Hr Hf) as (w' & tail & H & Hl & Ht & _ & _).
  exists w'; split; [exact H|]. split.
  - rewrite Hl. now apply calls_snoc_call.
  - intros response Hresp.
    pose proof (images_cycle ai dateNow w g style final ratio
                  Hg Hm Hv Hs Hr Hf) as H'.
    cbv zeta in H'. fold req in H'.
    change (images_request final (negativePromptInput_value w) ratio)
      with req in H'.
    rewrite Hresp in H'. rewrite H in H'. injection H' as ->.
    rewrite children_unload.
    apply (children_appended dateNow
             (map png_url (generatedImages response)) w g _ Hg).
Qed.

Lemma text_to_image_request_witness :
  exists w',
    generate (stub (Normal two_images) (Normal four_images)) clock
      (page TextToImage "a red bicycle" "Oil painting"
         empty_slot empty_slot empty_slot)
    = (Normal tt, w') /\
    remote_calls (log w')
    = [] ++ [CallGenerateImages
               {| gi_model := textToImageModel;
                  gi_prompt := js "Oil painting" ++ js ", " ++ js "a red bicycle";
                  numberOfImages := 4;
                  outputMimeType := js "image/png";
                  aspectRatio := Ratio_1_1;
                  negativePrompt := js "blurry" |}] /\
    forall response,
      Normal four_images = Normal response ->
      map img_src (gallery_children w')
      = map (fun image => js "data:image/png;base64," ++ imageBytes image)
          (generatedImages response) /\
      map link_href (gallery_children w')
      = map (fun image => js "data:image/png;base64," ++ imageBytes image)
          (generatedImages response).
Proof.
  apply (text_to_image_request
           (stub (Normal two_images) (Normal four_images)) clock
           (page TextToImage "a red bicycle" "Oil painting"
              empty_slot empty_slot empty_slot)
           {| gallery_el := plain; children := [old_entry] |}
           (js "Oil painting")
           (js "Oil painting" ++ js ", " ++ js "a red bicycle")
           Ratio_1_1).
  - reflexivity.
  - reflexivity.
  - unfold blank. vm_compute. discriminate.
  - reflexivity.
  - reflexivity.
  - apply (@with_style (js "a red bicycle") (js "Oil painting")).
    vm_compute. discriminate.
Defined.

(** C6: an ImageUpscale or FaceSwap submission that passes validation
    sends exactly one content-edit request, and that request is the same
    whatever the prompt and negative-prompt inputs hold: for upscaling
    the uploaded image followed by the fixed upscale instruction, for
    the face swap the source image, the target image and the fixed
    face-swap instruction, in this order. *)
Theorem fixed_instruction_requests (ai : Remote) (dateNow : nat -> N)
    (w : World) (g : Gallery) (mode : Mode) (prompt negative : jsstring) :
  imageGallery w = Some g ->
  checked_mode w = Some mode ->
  mode = ImageUpscale \/ mode = FaceSwap ->
  valid mode w = true ->
  exists w',
    generate ai dateNow (set_prompts prompt negative w) = (Normal tt, w') /\
    remote_calls (log w') =
    remote_calls (log w) ++
    [CallGenerateContent
       {| gc_model := imageEditModel;
          gc_parts :=
            match mode with
            | FaceSwap =>
                [InlineData (sourceImageBase64 w) (sourceImageMimeType w);
                 InlineData (targetImageBase64 w) (targetImageMimeType w);
                 Text faceSwapInstruction]
            | _ =>
                [InlineData (uploadedImageBase64 w) (uploadedImageMimeType w);
                 Text upscaleInstruction]
            end;
          gc_responseModalities := [IMAGE; TEXT] |}].
Proof.
  intros Hg Hm Hmode Hv.
  assert (Hc : content_mode mode = true) by (destruct Hmode; subst; reflexivity).
  assert (Hv' : valid mode (set_prompts prompt negative w) = true)
    by (destruct Hmode; subst; exact Hv).
  destruct (content_cycle_log ai dateNow (set_prompts prompt negative w) g mode
              Hg Hm Hc Hv') as (w' & tail & H & Hl & Ht & _ & _).
  exists w'; split; [exact H|].
  rewrite Hl.
  change (log (set_prompts prompt negative w)) with (log w).
  rewrite calls_snoc_call; trivial.
  destruct Hmode; subst; reflexivity.
Qed.

Lemma fixed_instruction_requests_witness :
  exists w',
    generate (stub (Normal two_images) (Normal four_images)) clock
      (set_prompts (js "ignore the instructions") (js "anything")
         (page FaceSwap "" "" empty_slot (png_slot "U1JD") (png_slot "VEdU")))
    = (Normal tt, w') /\
    remote_calls (log w') =
    [] ++
    [CallGenerateContent
       {| gc_model := imageEditModel;
          gc_parts :=
            [InlineData (Some (js "U1JD")) (Some (js "image/png"));
             InlineData (Some (js "VEdU")) (Some (js "image/png"));
             Text faceSwapInstruction];
          gc_responseModalities := [IMAGE; TEXT] |}].
Proof.
  apply (fixed_instruction_requests
           (stub (Normal two_images) (Normal four_images)) clock
           (page FaceSwap "" "" empty_slot (png_slot "U1JD") (png_slot "VEdU"))
           {| gallery_el := plain; children := [old_entry] |} FaceSwap
           (js "ignore the instructions") (js "anything")).
  - reflexivity.
  - reflexivity.
  - right. reflexivity.
  - reflexivity.
Defined.

(* ================================================================== *)
(** ** Failures and cleanup *)
(* ================================================================== *)

(** C7: with a mode selected, [generate] always completes normally and
    leaves the loading indicator off, whichever way it went: failed
    validation, success, or an error thrown by the remote call or by the
    extraction.  When the remote call it made was rejected, what follows
    the call is exactly the diagnostic log entry and one generic alert:
    no second call. *)
Theorem generate_always_cleans_up (ai : Remote) (dateNow : nat -> N)
    (w : World) (mode : Mode) :
  checked_mode w = Some mode ->
  exists w',
    generate ai dateNow w = (Normal tt, w') /\
    is_loading w' = false /\
    forall call e rest,
      log w' = log w ++ call :: rest ->
      remote_failure ai call = Some e ->
      rest = [ConsoleError e; Alert genericFailure].
Proof.
  intros Hm.
  destruct (imageGallery w) as [g|] eqn:Hg.
  2:{ exists w. unfold generate, bind, gets. rewrite Hg.
      split; [reflexivity|]. split.
      - unfold is_loading. now rewrite Hg.
      - intros call e rest Hl _. apply (f_equal (@List.length Event)) in Hl.
        rewrite length_app in Hl; simpl in Hl. lia. }
  destruct (valid mode w) eqn:Hv.
  - destruct (content_mode mode) eqn:Hc.
    + destruct (content_cycle_log ai dateNow w g mode Hg Hm Hc Hv)
        as (w' & tail & H & Hl & _ & Hfail & Hload).
      exists w'. split; [exact H|]. split; [exact Hload|].
      intros call e rest Hlog Hrf.
      rewrite Hl in Hlog. apply app_inv_head in Hlog.
      injection Hlog as <- <-. simpl in Hrf.
      apply Hfail.
      destruct (generateContent ai (content_request mode w));
        [discriminate | congruence].
    + destruct mode; try discriminate Hc.
      destruct (checked_imageStyle w) as [style|] eqn:Hs;
        [destruct (checked_aspectRatio w) as [ratio|] eqn:Hr|].
      * destruct (final_prompt_total (promptInput_value w) style) as [final Hf].
        destruct (images_cycle_log ai dateNow w g style final ratio
                    Hg Hm Hv Hs Hr Hf)
          as (w' & tail & H & Hl & _ & Hfail & Hload).
        exists w'. split; [exact H|]. split; [exact Hload|].
        intros call e rest Hlog Hrf.
        rewrite Hl in Hlog. apply app_inv_head in Hlog.
        injection Hlog as <- <-. simpl in Hrf.
        apply Hfail.
        destruct (generateImages ai _); [discriminate | congruence].
      * eexists. split;
          [apply (unchecked_cycle ai dateNow w g Hg Hm Hv); now right|].
        split; [apply is_loading_failed|].
        intros call e rest Hlog Hrf.
        rewrite log_failed in Hlog. apply app_inv_head in Hlog.
        injection Hlog as <- _. discriminate Hrf.
      * eexists. split;
          [apply (unchecked_cycle ai dateNow w g Hg Hm Hv); now left|].
        split; [apply is_loading_failed|].
        intros call e rest Hlog Hrf.
        rewrite log_failed in Hlog. apply app_inv_head in Hlog.
        injection Hlog as <- _. discriminate Hrf.
  - destruct (aborted_cycle ai dateNow w g mode Hg Hm Hv) as [msg H].
    eexists. split; [exact H|]. split; [apply is_loading_unload|].
    intros call e rest Hlog Hrf.
    change (log w ++ [Alert msg] = log w ++ call :: rest) in Hlog.
    apply app_inv_head in Hlog.
    injection Hlog as <- _. discriminate Hrf.
Qed.

Lemma generate_always_cleans_up_witness :
  exists w',
    generate offline clock
      (page ImageUpscale "" "" (png_slot "SU1H") empty_slot empty_slot)
    = (Normal tt, w') /\
    is_loading w' = false /\
    forall call e rest,
      log w' = [] ++ call :: rest ->
      remote_failure offline call = Some e ->
      rest = [ConsoleError e; Alert genericFailure].
Proof.
  apply (generate_always_cleans_up offline clock
           (page ImageUpscale "" "" (png_slot "SU1H") empty_slot empty_slot)
           ImageUpscale).
  reflexivity.
Defined.

(** C10: in ImageEdit, ImageUpscale and FaceSwap, a response without a
    first candidate, or whose first candidate lacks content or parts,
    makes the unguarded read throw; the handler of [generate] catches
    it: [generate] completes normally after the call, the diagnostic
    entry and the one generic alert, with an empty gallery and the
    loading indicator off. *)
Theorem missing_candidates_handled (ai : Remote) (dateNow : nat -> N)
    (w : World) (g : Gallery) (mode : Mode)
    (response : GenerateContentResponse) :
  imageGallery w = Some g ->
  checked_mode w = Some mode ->
  content_mode mode = true ->
  valid mode w = true ->
  generateContent ai (content_request mode w) = Normal response ->
  first_parts response = None ->
  exists w',
    generate ai dateNow w = (Normal tt, w') /\
    log w' = log w ++ [CallGenerateContent (content_request mode w);
                       ConsoleError TypeError; Alert genericFailure] /\
    gallery_children w' = [] /\
    is_loading w' = false.
Proof.
  intros Hg Hm Hc Hv Hr Hp.
  pose proof (content_cycle ai dateNow w g mode Hg Hm Hc Hv) as H.
  cbv zeta in H. rewrite Hr, Hp in H.
  eexists; split; [exact H|]. split; [|split].
  - rewrite log_failed; simpl. now rewrite <- app_assoc.
  - rewrite children_failed. apply children_prepared.
  - apply is_loading_failed.
Qed.

Lemma missing_candidates_handled_witness :
  exists w',
    generate (stub (Normal no_candidates) (Normal four_images)) clock
      (page FaceSwap "" "" empty_slot (png_slot "U1JD") (png_slot "VEdU"))
    = (Normal tt, w') /\
    log w' = [] ++ [CallGenerateContent
                      (content_request FaceSwap
                         (page FaceSwap "" "" empty_slot (png_slot "U1JD")
                            (png_slot "VEdU")));
                    ConsoleError TypeError; Alert genericFailure] /\
    gallery_children w' = [] /\
    is_loading w' = false.
Proof.
  apply (missing_candidates_handled
           (stub (Normal no_candidates) (Normal four_images)) clock
           (page FaceSwap "" "" empty_slot (png_slot "U1JD") (png_slot "VEdU"))
           {| gallery_el := plain; children := [old_entry] |} FaceSwap
           no_candidates);
    reflexivity.
Defined.

(* ================================================================== *)
(** ** Scenarios *)
(* ================================================================== *)

Example trim_strips_both_ends :
  trim (js "  a red bicycle  ") = js "a red bicycle" /\ trim [9%N; 160%N; 10%N] = [].
Proof. split; reflexivity. Qed.

Example split_takes_the_payload :
  nth_error (split_comma (js "data:image/png;base64,QUJD")) 1 = Some (js "QUJD").
Proof. reflexivity. Qed.

(** A picked PNG fills the single slot and swaps drop zone for preview. *)
Example png_upload_fills_slot :
  single (snd (handleSingleFile png_file
                 (page ImageEdit "" "" empty_slot empty_slot empty_slot)))
  = {| imageBase64 := Some (js "QUJD");
       imageMimeType := Some (js "image/png");
       uploadInput_value := [];
       previewContainer := Some plain;
       preview_src := js "data:image/png;base64,QUJD";
       dropZoneWrapper := Some concealed |}.
Proof. reflexivity. Qed.

(** Text to image, no style: the prompt goes out verbatim and four
    images come back as four entries. *)
Example scenario_plain_prompt :
  let w' := snd (generate (stub (Normal two_images) (Normal four_images)) clock
                   (page TextToImage "a red bicycle" "" empty_slot empty_slot
                      empty_slot)) in
  log w' = [CallGenerateImages
              (images_request (js "a red bicycle") (js "blurry") Ratio_1_1)] /\
  map img_src (gallery_children w')
  = [js "data:image/png;base64,AAAA"; js "data:image/png;base64,BBBB";
     js "data:image/png;base64,CCCC"; js "data:image/png;base64,DDDD"] /\
  map link_download (gallery_children w')
  = [js "imagen-generated-1700000000000.png";
     js "imagen-generated-1700000000001.png";
     js "imagen-generated-1700000000002.png";
     js "imagen-generated-1700000000003.png"].
Proof. vm_compute. repeat split. Qed.

(** Text to image with a style: tag, comma, space, prompt. *)
Example scenario_styled_prompt :
  remote_calls
    (log (snd (generate offline clock
                 (page TextToImage "a red bicycle" "Oil painting" empty_slot
                    empty_slot empty_slot))))
  = [CallGenerateImages
       (images_request (js "Oil painting, a red bicycle") (js "blurry")
          Ratio_1_1)].
Proof. vm_compute. reflexivity. Qed.

(** Image edit: the image, then the prompt as text. *)
Example scenario_edit_request :
  remote_calls
    (log (snd (generate (stub (Normal two_images) (Normal four_images)) clock
                 (page ImageEdit "make the sky purple" "" (png_slot "SU1H")
                    empty_slot empty_slot))))
  = [CallGenerateContent
       {| gc_model := imageEditModel;
          gc_parts := [InlineData (Some (js "SU1H")) (Some (js "image/png"));
                       Text (js "make the sky purple")];
          gc_responseModalities := [IMAGE; TEXT] |}].
Proof. vm_compute. reflexivity. Qed.

(** Without a checked mode radio the read of line 76 throws before the
    gallery is touched. *)
Example unchecked_mode_throws :
  let w := set_gallery (gallery_classList (classList_add loading))
             (page FaceSwap "" "" empty_slot empty_slot empty_slot) in
  let w0 :=
    {| single := single w; source := source w; target := target w;
       imageGallery := imageGallery w;
       promptInput_value := promptInput_value w;
       negativePromptInput_value := negativePromptInput_value w;
       fieldsets := fieldsets w; checked_mode := None;
       checked_imageStyle := checked_imageStyle w;
       checked_aspectRatio := checked_aspectRatio w;
       log := log w; ticks := ticks w |} in
  generate offline clock w0 = (Throw TypeError, w0).
Proof. reflexivity. Qed.

(* ================================================================== *)
(** ** Class lists, once more *)
(* ================================================================== *)

Lemma str_eqb_eq (a b : jsstring) : str_eqb a b = true <-> a = b.
Proof.
  split; [|intros ->; apply str_eqb_refl].
  revert b; induction a as [|x a IH]; intros [|y b]; simpl;
    try discriminate; [reflexivity|].
  intros H. apply andb_prop in H as [Hx Hr].
  apply N.eqb_eq in Hx. apply IH in Hr. congruence.
Qed.

Lemma add_idem (c : jsstring) (e : Element) :
  classList_add c (classList_add c e) = classList_add c e.
Proof.
  unfold classList_add at 1. now rewrite contains_add.
Qed.

Lemma filter_absent (c : jsstring) (l : list jsstring) :
  existsb (str_eqb c) l = false ->
  filter (fun x => negb (str_eqb c x)) l = l.
Proof.
  induction l as [|x l IH]; simpl; [reflexivity|].
  intros H. apply orb_false_elim in H as [Hx Hl].
  rewrite Hx; simpl. now rewrite IH.
Qed.

Lemma remove_absent (c : jsstring) (e : Element) :
  contains c e = false -> classList_remove c e = e.
Proof.
  unfold contains, classList_remove. intros H.
  rewrite filter_absent by exact H. now destruct e.
Qed.

Lemma remove_idem (c : jsstring) (e : Element) :
  classList_remove c (classList_remove c e) = classList_remove c e.
Proof. apply remove_absent, contains_remove. Qed.

Lemma remove_add_absent (c : jsstring) (e : Element) :
  contains c e = false -> classList_remove c (classList_add c e) = e.
Proof.
  intros H. unfold classList_add. rewrite H.
  unfold classList_remove; simpl.
  rewrite filter_app; simpl. rewrite str_eqb_refl; simpl.
  rewrite app_nil_r, filter_absent by exact H. now destruct e.
Qed.

Lemma remove_add (c : jsstring) (e : Element) :
  classList_remove c (classList_add c e) = classList_remove c e.
Proof.
  destruct (contains c e) eqn:H.
  - unfold classList_add. now rewrite H.
  - rewrite remove_add_absent, remove_absent; trivial.
Qed.

Lemma hide_idem (o : option Element) : hide (hide o) = hide o.
Proof. destruct o; simpl; [now rewrite add_idem | reflexivity]. Qed.

Lemma show_idem (o : option Element) : show (show o) = show o.
Proof. destruct o; simpl; [now rewrite remove_idem | reflexivity]. Qed.

Lemma show_hide_show (o : option Element) : show (hide (show o)) = show o.
Proof.
  destruct o as [e|]; simpl; [|reflexivity].
  now rewrite remove_add, remove_idem.
Qed.

Lemma clear_slot_idem (s : Slot) : clear_slot (clear_slot s) = clear_slot s.
Proof.
  unfold clear_slot; simpl. f_equal.
  - apply hide_idem.
  - apply show_idem.
Qed.

(* ================================================================== *)
(** ** The layout of each mode *)
(* ================================================================== *)

(** X1: after [updateUiForMode] the fieldsets that exist follow the
    table of the modes whatever they looked like before: text to image
    shows prompt, negative prompt, aspect ratio and style; image edit
    shows prompt and image upload; upscale shows image upload only;
    face swap shows the face-swap fieldset only; every other fieldset is
    hidden. *)
Theorem mode_layout (mode : Mode) (w : World) :
  let f := fieldsets (snd (updateUiForMode mode w)) in
  match mode with
  | TextToImage =>
      is_shown (promptFieldset f) /\ is_hidden (imageUploadFieldset f) /\
      is_hidden (faceSwapFieldset f) /\ is_shown (negativePromptFieldset f) /\
      is_shown (aspectRatioFieldset f) /\ is_shown (styleFieldset f)
  | ImageEdit =>
      is_shown (promptFieldset f) /\ is_shown (imageUploadFieldset f) /\
      is_hidden (faceSwapFieldset f) /\ is_hidden (negativePromptFieldset f) /\
      is_hidden (aspectRatioFieldset f) /\ is_hidden (styleFieldset f)
  | ImageUpscale =>
      is_hidden (promptFieldset f) /\ is_shown (imageUploadFieldset f) /\
      is_hidden (faceSwapFieldset f) /\ is_hidden (negativePromptFieldset f) /\
      is_hidden (aspectRatioFieldset f) /\ is_hidden (styleFieldset f)
  | FaceSwap =>
      is_hidden (promptFieldset f) /\ is_hidden (imageUploadFieldset f) /\
      is_shown (faceSwapFieldset f) /\ is_hidden (negativePromptFieldset f) /\
      is_hidden (aspectRatioFieldset f) /\ is_hidden (styleFieldset f)
  end.
Proof.
  destruct mode; simpl;
    repeat split; first [apply show_is_shown | apply hide_is_hidden].
Qed.

(** X2: switching to the mode that is already laid out changes
    nothing: [updateUiForMode] run twice for one mode ends in the very
    world it ends in when run once. *)
Theorem mode_switch_idempotent (mode : Mode) (w : World) :
  updateUiForMode mode (snd (updateUiForMode mode w)) = updateUiForMode mode w.
Proof.
  assert (Hf : forall f, show_for mode (hide_all (show_for mode (hide_all f)))
                         = show_for mode (hide_all f)).
  { intros f. destruct mode; unfold show_for, hide_all; simpl; f_equal;
      first [ apply hide_idem | apply (show_hide_show (hide _)) ]. }
  destruct w as [sg sr tg gl pv nv fs cm cs ca lg tk].
  destruct mode;
    cbv beta iota delta [updateUiForMode bind modify removeSingleUploadedImage
      removeSourceImage removeTargetImage
      set_fieldsets set_single set_source set_target
      snd single source target imageGallery
      promptInput_value negativePromptInput_value fieldsets checked_mode
      checked_imageStyle checked_aspectRatio log ticks];
    rewrite ?clear_slot_idem, (Hf fs); reflexivity.
Qed.

(* ================================================================== *)
(** ** Uploads *)
(* ================================================================== *)

Lemma startsWith_prefix (s p : jsstring) :
  startsWith s p = true <-> exists r, s = p ++ r.
Proof.
  revert s; induction p as [|c p IH]; intros s; simpl.
  - split; [intros _; now exists s | now destruct s].
  - destruct s as [|d s]; simpl.
    + split; [discriminate | intros [r H]; discriminate].
    + split.
      * intros H. apply andb_prop in H as [Hc Hs].
        apply N.eqb_eq in Hc. apply IH in Hs as [r ->].
        exists r. now subst.
      * intros [r H]. injection H as Hd Hs. subst d s.
        rewrite N.eqb_refl; simpl.
        apply IH. now exists r.
Qed.

Lemma split_whole (b : jsstring) : no_comma b = true -> split_comma b = [b].
Proof.
  induction b as [|c b IH]; simpl; [reflexivity|].
  intros H. apply andb_prop in H as [Hc Hb].
  apply negb_true_iff in Hc. rewrite Hc, IH by exact Hb. reflexivity.
Qed.

Lemma split_head (a b : jsstring) :
  no_comma a = true ->
  split_comma (a ++ 44%N :: b) = a :: split_comma b.
Proof.
  induction a as [|c a IH]; simpl; [reflexivity|].
  intros H. apply andb_prop in H as [Hc Ha].
  apply negb_true_iff in Hc. rewrite Hc, IH by exact Ha. reflexivity.
Qed.

Lemma no_comma_app (a b : jsstring) :
  no_comma (a ++ b) = no_comma a && no_comma b.
Proof. apply forallb_app. Qed.

(** The payload of a well-formed data URL is read back whole. *)
Lemma payload_of_dataUrl (t payload : jsstring) :
  no_comma t = true ->
  no_comma payload = true ->
  nth_error (split_comma (dataUrl t payload)) 1 = Some payload.
Proof.
  intros Ht Hp. unfold dataUrl.
  change (js ";base64,") with (js ";base64" ++ [44%N]).
  replace (js "data:" ++ t ++ (js ";base64" ++ [44%N]) ++ payload)
    with ((js "data:" ++ t ++ js ";base64") ++ 44%N :: payload)
    by (now rewrite <- !app_assoc).
  rewrite split_head, split_whole; trivial.
  rewrite !no_comma_app, Ht. reflexivity.
Qed.

Lemma slot_of_set_single (f : Slot -> Slot) (w : World) (s : SlotId) :
  slot_of s (set_single f w)
  = match s with SingleSlot => f (single w) | _ => slot_of s w end.
Proof. now destruct s. Qed.

Lemma slot_of_set_source (f : Slot -> Slot) (w : World) (s : SlotId) :
  slot_of s (set_source f w)
  = match s with SourceSlot => f (source w) | _ => slot_of s w end.
Proof. now destruct s. Qed.

Lemma slot_of_set_target (f : Slot -> Slot) (w : World) (s : SlotId) :
  slot_of s (set_target f w)
  = match s with TargetSlot => f (target w) | _ => slot_of s w end.
Proof. now destruct s. Qed.

(** What a handler does with a file the encoder accepts. *)
Lemma fileHandler_accepts (s : SlotId) (file : File) (w : World)
    (b : option jsstring) (m : jsstring) :
  fileToBase64 file = Normal (b, m) ->
  exists w',
    fileHandler s file w = (Normal tt, w') /\
    slot_of s w' = store_image b m (slot_of s w) /\
    (forall s', s' <> s -> slot_of s' w' = slot_of s' w) /\
    log w' = log w /\ imageGallery w' = imageGallery w /\
    checked_mode w' = checked_mode w /\
    promptInput_value w' = promptInput_value w.
Proof.
  intros H.
  destruct s; unfold fileHandler, handleSingleFile, handleSourceFile,
    handleTargetFile, handleFile, try_catch, bind, await; rewrite H; simpl;
    eexists; (split; [reflexivity|]); simpl; repeat split;
    intros [] Hs; try reflexivity; now contradiction Hs.
Qed.

(** What a handler does with a file the encoder rejects. *)
Lemma fileHandler_rejects (s : SlotId) (file : File) (w : World) (e : JsError) :
  fileToBase64 file = Throw e ->
  fileHandler s file w = (Normal tt, emit (Alert (interp (message_of e))) w).
Proof.
  intros H.
  destruct s; unfold fileHandler, handleSingleFile, handleSourceFile,
    handleTargetFile, handleFile, try_catch, bind, await; rewrite H;
    reflexivity.
Qed.

(** X3: a file of an image type whose reader delivers the data URL of
    its type and payload (neither contains a comma, as MIME types and
    base64 text never do) fills its slot with exactly that payload and
    type; the preview shows the URL that was read, the drop zone is
    hidden, nothing is alerted and the other two slots are untouched. *)
Theorem upload_stores_payload (s : SlotId) (t payload : jsstring) (w : World) :
  startsWith t (js "image/") = true ->
  no_comma t = true ->
  no_comma payload = true ->
  exists w',
    fileHandler s {| file_type := t; file_read := Loaded (dataUrl t payload) |} w
    = (Normal tt, w') /\
    imageBase64 (slot_of s w') = Some payload /\
    imageMimeType (slot_of s w') = Some t /\
    preview_src (slot_of s w') = dataUrl t payload /\
    is_shown (previewContainer (slot_of s w')) /\
    is_hidden (dropZoneWrapper (slot_of s w')) /\
    log w' = log w /\
    forall s', s' <> s -> slot_of s' w' = slot_of s' w.
Proof.
  intros Hi Ht Hp.
  destruct (fileHandler_accepts s
              {| file_type := t; file_read := Loaded (dataUrl t payload) |} w
              (Some payload) t) as (w' & H & Hs & Ho & Hl & _).
  { unfold fileToBase64. cbn [file_type file_read]. rewrite Hi. cbn [negb].
    now rewrite payload_of_dataUrl. }
  exists w'. split; [exact H|]. rewrite Hs; simpl.
  repeat split; trivial.
  - apply show_is_shown.
  - apply hide_is_hidden.
Qed.

Lemma upload_stores_payload_witness :
  exists w',
    fileHandler SourceSlot
      {| file_type := js "image/png";
         file_read := Loaded (dataUrl (js "image/png") (js "QUJD")) |}
      (page FaceSwap "" "" empty_slot empty_slot empty_slot)
    = (Normal tt, w') /\
    imageBase64 (slot_of SourceSlot w') = Some (js "QUJD") /\
    imageMimeType (slot_of SourceSlot w') = Some (js "image/png") /\
    preview_src (slot_of SourceSlot w') = dataUrl (js "image/png") (js "QUJD") /\
    is_shown (previewContainer (slot_of SourceSlot w')) /\
    is_hidden (dropZoneWrapper (slot_of SourceSlot w')) /\
    log w' = [] /\
    forall s', s' <> SourceSlot ->
      slot_of s' w'
      = slot_of s' (page FaceSwap "" "" empty_slot empty_slot empty_slot).
Proof.
  apply (upload_stores_payload SourceSlot (js "image/png") (js "QUJD")
           (page FaceSwap "" "" empty_slot empty_slot empty_slot));
    reflexivity.
Defined.

(** X4: when the reader of an image file fails, the handler alerts the
    [message] of the event it was rejected with, which has none: the
    user reads "undefined", and the world is otherwise unchanged. *)
Theorem read_failure_alerts_undefined (s : SlotId) (file : File) (w : World) :
  startsWith (file_type file) (js "image/") = true ->
  file_read file = ReadFailed ->
  fileHandler s file w = (Normal tt, emit (Alert (js "undefined")) w).
Proof.
  intros Hi Hr.
  apply (fileHandler_rejects s file w ProgressEvent).
  unfold fileToBase64. now rewrite Hi, Hr.
Qed.

Lemma read_failure_alerts_undefined_witness :
  fileHandler TargetSlot {| file_type := js "image/gif"; file_read := ReadFailed |}
    (page FaceSwap "" "" empty_slot empty_slot empty_slot)
  = (Normal tt,
     emit (Alert (js "undefined"))
       (page FaceSwap "" "" empty_slot empty_slot empty_slot)).
Proof.
  apply (read_failure_alerts_undefined TargetSlot
           {| file_type := js "image/gif"; file_read := ReadFailed |}
           (page FaceSwap "" "" empty_slot empty_slot empty_slot));
    reflexivity.
Defined.

(** X5: the encoder refuses a file as not an image exactly when its
    declared type is not [image/] followed by something (possibly
    nothing); the content of the file plays no part. *)
Theorem encoder_checks_type_prefix_only (file : File) :
  fileToBase64 file = Throw (Error (js "File is not an image."))
  <-> ~ exists rest, file_type file = js "image/" ++ rest.
Proof.
  unfold fileToBase64.
  destruct (startsWith (file_type file) (js "image/")) eqn:E; cbn [negb].
  - apply startsWith_prefix in E. split.
    + destruct (file_read file); discriminate.
    + intros H. contradiction.
  - split; [|reflexivity].
    intros _ H. apply startsWith_prefix in H. congruence.
Qed.

(** X6: a second upload replaces the first wholesale: after two files
    that the encoder accepts, the world is the one the second file alone
    would have produced. *)
Theorem reupload_replaces (s : SlotId) (f1 f2 : File) (w : World)
    (r1 r2 : option jsstring * jsstring) :
  fileToBase64 f1 = Normal r1 ->
  fileToBase64 f2 = Normal r2 ->
  fileHandler s f2 (snd (fileHandler s f1 w)) = fileHandler s f2 w.
Proof.
  intros H1 H2.
  assert (Hstore : forall x,
    store_image (fst r2) (snd r2) (store_image (fst r1) (snd r1) x)
    = store_image (fst r2) (snd r2) x).
  { intros x. unfold store_image; simpl. f_equal.
    - apply (show_idem (previewContainer x)).
    - apply (hide_idem (dropZoneWrapper x)). }
  destruct s; unfold fileHandler, handleSingleFile, handleSourceFile,
    handleTargetFile, handleFile, try_catch, bind, await, modify;
    rewrite H1, H2; simpl;
    unfold set_single, set_source, set_target; simpl;
    now rewrite Hstore.
Qed.

Lemma reupload_replaces_witness :
  fileHandler SingleSlot png_file
    (snd (fileHandler SingleSlot
            {| file_type := js "image/jpeg";
               file_read := Loaded (js "data:image/jpeg;base64,REVG") |}
            (page ImageEdit "" "" empty_slot empty_slot empty_slot)))
  = fileHandler SingleSlot png_file
      (page ImageEdit "" "" empty_slot empty_slot empty_slot).
Proof.
  apply (reupload_replaces SingleSlot
           {| file_type := js "image/jpeg";
              file_read := Loaded (js "data:image/jpeg;base64,REVG") |}
           png_file
           (page ImageEdit "" "" empty_slot empty_slot empty_slot)
           (Some (js "REVG"), js "image/jpeg")
           (Some (js "QUJD"), js "image/png"));
    reflexivity.
Defined.

(* ================================================================== *)
(** ** What a cycle leaves alone *)
(* ================================================================== *)

Lemma keeps_ret {A} (a : A) : keeps_form (ret a).
Proof. intros w; reflexivity. Qed.

Lemma keeps_throw {A} (e : JsError) : keeps_form (@throw A e).
Proof. intros w; reflexivity. Qed.

Lemma keeps_gets {A} (f : World -> A) : keeps_form (gets f).
Proof. intros w; reflexivity. Qed.

Lemma keeps_modify (f : World -> World) :
  (forall w, form_of (f w) = form_of w) -> keeps_form (modify f).
Proof. intros H w; apply H. Qed.

Lemma keeps_bind {A B} (m : M A) (k : A -> M B) :
  keeps_form m -> (forall a, keeps_form (k a)) -> keeps_form (bind m k).
Proof.
  intros Hm Hk w. unfold bind.
  specialize (Hm w). destruct (m w) as [[a|e] w1]; simpl in *.
  - now rewrite Hk.
  - exact Hm.
Qed.

Lemma keeps_deref {A} (o : option A) : keeps_form (deref o).
Proof. destruct o; intros w; reflexivity. Qed.

Lemma keeps_await {A} (c : Completion A) : keeps_form (await c).
Proof. destruct c; intros w; reflexivity. Qed.

Lemma keeps_forEach {A} (l : list A) (f : A -> M unit) :
  (forall x, keeps_form (f x)) -> keeps_form (forEach l f).
Proof.
  intros Hf. induction l as [|x l IH]; simpl.
  - apply keeps_ret.
  - apply keeps_bind; [apply Hf | intros _; exact IH].
Qed.

Lemma keeps_try_catch_finally (body : M unit) (handler : JsError -> M unit)
    (fin : M unit) :
  keeps_form body -> (forall e, keeps_form (handler e)) -> keeps_form fin ->
  keeps_form (try_catch_finally body handler fin).
Proof.
  intros Hb Hh Hf w. unfold try_catch_finally.
  specialize (Hb w). destruct (body w) as [[[]|e] w1]; simpl in Hb.
  - now rewrite Hf.
  - specialize (Hh e w1). destruct (handler e w1) as [[[]|e'] w2]; simpl in Hh.
    + rewrite Hf. congruence.
    + specialize (Hf w2). destruct (fin w2) as [[[]|e''] w3]; simpl in *;
        congruence.
Qed.

Ltac keeps :=
  repeat first
    [ apply keeps_ret | apply keeps_throw | apply keeps_gets
    | apply keeps_deref | apply keeps_await
    | apply keeps_modify; intros ?; reflexivity
    | apply keeps_forEach; intros ?
    | apply keeps_bind; [|intros ?]
    | match goal with
      | |- keeps_form (if ?b then _ else _) => destruct b
      | |- keeps_form (match ?x with _ => _ end) => destruct x
      end ].

Lemma keeps_appendImage (dateNow : nat -> N) (url : jsstring) :
  keeps_form (appendImage dateNow url).
Proof. unfold appendImage, Date_now. keeps. Qed.

Lemma keeps_extract (dateNow : nat -> N) (r : GenerateContentResponse) :
  keeps_form (extract dateNow r).
Proof. unfold extract. keeps. Qed.

Lemma keeps_generate_body (ai : Remote) (dateNow : nat -> N) (mode : Mode) :
  keeps_form (generate_body ai dateNow mode).
Proof.
  unfold generate_body, edit_call, models_generateContent,
    models_generateImages, alert, remove_loading.
  destruct mode; keeps.
Qed.

Lemma keeps_generate (ai : Remote) (dateNow : nat -> N) :
  keeps_form (generate ai dateNow).
Proof.
  unfold generate. keeps.
  apply keeps_try_catch_finally.
  - apply keeps_generate_body.
  - intros e. unfold console_error, alert. keeps.
  - unfold remove_loading. keeps.
Qed.

(** X7: whatever the service answers and however the cycle ends,
    [generate] leaves the three upload slots, both text inputs, the
    fieldsets and the radio groups exactly as they were: it only writes
    the gallery and the log and reads the clock. *)
Theorem generate_leaves_form_alone (ai : Remote) (dateNow : nat -> N)
    (w : World) :
  let w' := snd (generate ai dateNow w) in
  single w' = single w /\ source w' = source w /\ target w' = target w /\
  promptInput_value w' = promptInput_value w /\
  negativePromptInput_value w' = negativePromptInput_value w /\
  fieldsets w' = fieldsets w /\
  checked_mode w' = checked_mode w /\
  checked_imageStyle w' = checked_imageStyle w /\
  checked_aspectRatio w' = checked_aspectRatio w.
Proof.
  pose proof (keeps_generate ai dateNow w) as H.
  unfold form_of in H. injection H as H1 H2 H3 H4 H5 H6 H7 H8 H9.
  cbv zeta. repeat split; assumption.
Qed.

(* ================================================================== *)
(** ** The ways a cycle can end *)
(* ================================================================== *)

Section Cycles.

Variable ai : Remote.
Variable dateNow : nat -> N.

(** Every cycle on a page with gallery and checked mode ends in one of
    five worlds. *)
Lemma cycle_cases (w : World) (g : Gallery) (mode : Mode) :
  imageGallery w = Some g ->
  checked_mode w = Some mode ->
  exists w',
    generate ai dateNow w = (Normal tt, w') /\
    ((dispatches mode w = false /\
      ((exists msg, valid mode w = false /\
                    w' = unload (unload (emit (Alert msg) (prepared w))))
       \/ (valid mode w = true /\ w' = failed TypeError (prepared w))))
     \/
     (dispatches mode w = true /\
      exists call, is_call call = true /\
        ((exists e, remote_failure ai call = Some e /\
                    w' = failed e (emit call (prepared w)))
         \/ (remote_failure ai call = None /\
             (w' = failed TypeError (emit call (prepared w))
              \/ exists urls,
                   w' = unload (append_all dateNow urls
                                  (emit call (prepared w)))))))).
Proof.
  intros Hg Hm. unfold dispatches.
  destruct (valid mode w) eqn:Hv.
  2:{ destruct (aborted_cycle ai dateNow w g mode Hg Hm Hv) as [msg H].
      eexists; split; [exact H|]. left. split; [reflexivity|].
      left. exists msg. now split. }
  destruct (content_mode mode) eqn:Hc.
  - pose proof (content_cycle ai dateNow w g mode Hg Hm Hc Hv) as H.
    cbv zeta in H.
    eexists; split; [exact H|]. right.
    split; [destruct mode; try discriminate Hc; reflexivity|].
    exists (CallGenerateContent (content_request mode w)).
    split; [reflexivity|]. simpl.
    destruct (generateContent ai (content_request mode w)) as [r|e].
    + right. split; [reflexivity|].
      destruct (first_parts r) as [ps|]; [right; eauto | now left].
    + left. eauto.
  - destruct mode; try discriminate Hc.
    destruct (checked_imageStyle w) as [style|] eqn:Hs;
      [destruct (checked_aspectRatio w) as [ratio|] eqn:Hr|].
    + destruct (final_prompt_total (promptInput_value w) style) as [final Hf].
      pose proof (images_cycle ai dateNow w g style final ratio
                    Hg Hm Hv Hs Hr Hf) as H.
      cbv zeta in H.
      eexists; split; [exact H|]. right. split; [reflexivity|].
      exists (CallGenerateImages
                (images_request final (negativePromptInput_value w) ratio)).
      split; [reflexivity|]. simpl.
      destruct (generateImages ai _) as [r|e].
      * right. split; [reflexivity|]. right. eauto.
      * left. eauto.
    + eexists; split;
        [apply (unchecked_cycle ai dateNow w g Hg Hm Hv); now right|].
      left. split; [reflexivity|]. right. now split.
    + eexists; split;
        [apply (unchecked_cycle ai dateNow w g Hg Hm Hv); now left|].
      left. split; [reflexivity|]. right. now split.
Qed.

Lemma gallery_unload (w : World) (g : Gallery) :
  imageGallery w = Some g ->
  imageGallery (unload w)
  = Some {| gallery_el := classList_remove loading (gallery_el g);
            children := children g |}.
Proof. intros H; simpl. now rewrite H. Qed.

Lemma gallery_failed (e : JsError) (w : World) (g : Gallery) :
  imageGallery w = Some g ->
  imageGallery (failed e w)
  = Some {| gallery_el := classList_remove loading (gallery_el g);
            children := children g |}.
Proof. intros H. unfold failed. apply gallery_unload. exact H. Qed.

Lemma calls_failed (e : JsError) (w : World) :
  remote_calls (log (failed e w)) = remote_calls (log w).
Proof.
  rewrite log_failed. unfold remote_calls. rewrite filter_app; simpl.
  apply app_nil_r.
Qed.

Lemma calls_sent (call : Event) (w : World) :
  is_call call = true ->
  remote_calls (log (emit call (prepared w))) = remote_calls (log w) ++ [call].
Proof.
  intros H; simpl. unfold remote_calls. rewrite filter_app; simpl.
  now rewrite H.
Qed.

End Cycles.

(** X8: a cycle makes its remote call exactly when the validation of
    its mode passes (for text to image: and the style and aspect-ratio
    radios are checked); then it makes exactly one call, otherwise none.
    An empty base64 string counts as a missing image. *)
Theorem one_call_iff_dispatches (ai : Remote) (dateNow : nat -> N)
    (w : World) (g : Gallery) (mode : Mode) :
  imageGallery w = Some g ->
  checked_mode w = Some mode ->
  let w' := snd (generate ai dateNow w) in
  (dispatches mode w = true ->
   exists call, is_call call = true /\
     remote_calls (log w') = remote_calls (log w) ++ [call]) /\
  (dispatches mode w = false ->
   remote_calls (log w') = remote_calls (log w)).
Proof.
  intros Hg Hm.
  destruct (cycle_cases ai dateNow w g mode Hg Hm) as (w' & H & Hcases).
  rewrite H; simpl.
  destruct Hcases as [[Hd [(msg & Hv & ->) | (Hv & ->)]] | (Hd & call & Hc & Hcall)].
  - split; [congruence|]. intros _. exact (calls_snoc_alert (log w) msg).
  - split; [congruence|]. intros _. rewrite calls_failed. reflexivity.
  - split; [|congruence]. intros _. exists call. split; [exact Hc|].
    destruct Hcall as [(e & _ & ->) | (_ & [-> | (urls & ->)])].
    + rewrite calls_failed. now apply calls_sent.
    + rewrite calls_failed. now apply calls_sent.
    + change (log (unload ?x)) with (log x).
      rewrite log_append_all. now apply calls_sent.
Qed.

Lemma one_call_iff_dispatches_witness :
  let w := page ImageEdit "brighten" ""
             {| imageBase64 := Some []; imageMimeType := Some (js "image/png");
                uploadInput_value := []; previewContainer := Some plain;
                preview_src := []; dropZoneWrapper := Some concealed |}
             empty_slot empty_slot in
  let w' := snd (generate offline clock w) in
  (dispatches ImageEdit w = true ->
   exists call, is_call call = true /\
     remote_calls (log w') = remote_calls (log w) ++ [call]) /\
  (dispatches ImageEdit w = false ->
   remote_calls (log w') = remote_calls (log w)).
Proof.
  intros w.
  apply (one_call_iff_dispatches offline clock w
           {| gallery_el := plain; children := [old_entry] |} ImageEdit);
    reflexivity.
Defined.

(** X9: when the call a cycle made is rejected, the gallery ends
    empty: the earlier results are gone and nothing was appended. *)
Theorem rejected_call_leaves_gallery_empty (ai : Remote) (dateNow : nat -> N)
    (w : World) (g : Gallery) (mode : Mode) (call : Event) (e : JsError)
    (rest : list Event) :
  imageGallery w = Some g ->
  checked_mode w = Some mode ->
  log (snd (generate ai dateNow w)) = log w ++ call :: rest ->
  remote_failure ai call = Some e ->
  gallery_children (snd (generate ai dateNow w)) = [].
Proof.
  intros Hg Hm.
  destruct (cycle_cases ai dateNow w g mode Hg Hm) as (w' & H & Hcases).
  rewrite H; simpl. intros Hl Hf.
  destruct Hcases as [[Hd [(msg & Hv & ->) | (Hv & ->)]] | (Hd & c & Hc & Hcall)].
  - rewrite !children_unload. apply children_prepared.
  - rewrite children_failed. apply children_prepared.
  - destruct Hcall as [(e' & _ & ->) | (Hn & [-> | (urls & ->)])].
    + rewrite children_failed. apply children_prepared.
    + rewrite children_failed. apply children_prepared.
    + change (log (unload ?x)) with (log x) in Hl.
      rewrite log_append_all in Hl; simpl in Hl.
      apply app_inv_head in Hl. injection Hl as <- _. congruence.
Qed.

Lemma rejected_call_leaves_gallery_empty_witness :
  gallery_children
    (snd (generate offline clock
            (page ImageUpscale "" "" (png_slot "SU1H") empty_slot empty_slot)))
  = [].
Proof.
  apply (rejected_call_leaves_gallery_empty offline clock
           (page ImageUpscale "" "" (png_slot "SU1H") empty_slot empty_slot)
           {| gallery_el := plain; children := [old_entry] |} ImageUpscale
           (CallGenerateContent
              (content_request ImageUpscale
                 (page ImageUpscale "" "" (png_slot "SU1H") empty_slot
                    empty_slot)))
           (ApiError (js "fetch failed"))
           [ConsoleError (ApiError (js "fetch failed")); Alert genericFailure]);
    reflexivity.
Defined.

(** X10: a content-edit answer whose parts carry no inline data (text
    only, or no parts at all in the list) ends the cycle normally with
    an empty gallery and without any message: the call is the only new
    event. *)
Theorem text_only_answer_is_silent (ai : Remote) (dateNow : nat -> N)
    (w : World) (g : Gallery) (mode : Mode)
    (response : GenerateContentResponse) (ps : list Part) :
  imageGallery w = Some g ->
  checked_mode w = Some mode ->
  content_mode mode = true ->
  valid mode w = true ->
  generateContent ai (content_request mode w) = Normal response ->
  first_parts response = Some ps ->
  inline_blobs ps = [] ->
  exists w',
    generate ai dateNow w = (Normal tt, w') /\
    log w' = log w ++ [CallGenerateContent (content_request mode w)] /\
    gallery_children w' = [] /\
    is_loading w' = false.
Proof.
  intros Hg Hm Hc Hv Hr Hp Hi.
  pose proof (content_cycle ai dateNow w g mode Hg Hm Hc Hv) as H.
  cbv zeta in H. rewrite Hr, Hp, Hi in H.
  eexists; split; [exact H|]. split; [reflexivity|]. split.
  - rewrite children_unload. apply children_prepared.
  - apply is_loading_unload.
Qed.

Lemma text_only_answer_is_silent_witness :
  exists w',
    generate (stub (Normal (response_with [text_part "I cannot edit this."]))
                (Normal four_images)) clock
      (page ImageEdit "make the sky purple" "" (png_slot "SU1H") empty_slot
         empty_slot)
    = (Normal tt, w') /\
    log w' = [] ++ [CallGenerateContent
                      (content_request ImageEdit
                         (page ImageEdit "make the sky purple" ""
                            (png_slot "SU1H") empty_slot empty_slot))] /\
    gallery_children w' = [] /\
    is_loading w' = false.
Proof.
  apply (text_only_answer_is_silent
           (stub (Normal (response_with [text_part "I cannot edit this."]))
              (Normal four_images)) clock
           (page ImageEdit "make the sky purple" "" (png_slot "SU1H")
              empty_slot empty_slot)
           {| gallery_el := plain; children := [old_entry] |} ImageEdit
           (response_with [text_part "I cannot edit this."])
           [text_part "I cannot edit this."]);
    reflexivity.
Defined.

(** X11: a text-to-image submission with a non-blank prompt on a page
    where no style radio or no aspect-ratio radio is checked throws
    while it builds the request: the handler reports the generic
    failure, no request is sent, the gallery is empty and the loading
    indicator is off. *)
Theorem unchecked_radio_is_reported (ai : Remote) (dateNow : nat -> N)
    (w : World) (g : Gallery) :
  imageGallery w = Some g ->
  checked_mode w = Some TextToImage ->
  ~ blank (promptInput_value w) ->
  checked_imageStyle w = None \/ checked_aspectRatio w = None ->
  exists w',
    generate ai dateNow w = (Normal tt, w') /\
    log w' = log w ++ [ConsoleError TypeError; Alert genericFailure] /\
    gallery_children w' = [] /\
    is_loading w' = false.
Proof.
  intros Hg Hm Hb Hn.
  assert (Hv : valid TextToImage w = true).
  { unfold valid, nonblank, blank in *.
    destruct (trim (promptInput_value w)); [contradiction|reflexivity]. }
  eexists; split; [apply (unchecked_cycle ai dateNow w g Hg Hm Hv Hn)|].
  split; [rewrite log_failed; reflexivity|]. split.
  - rewrite children_failed. apply children_prepared.
  - apply is_loading_failed.
Qed.

Lemma unchecked_radio_is_reported_witness :
  let w := {| single := empty_slot; source := empty_slot; target := empty_slot;
              imageGallery := Some {| gallery_el := plain; children := [] |};
              promptInput_value := js "a red bicycle";
              negativePromptInput_value := [];
              fieldsets := fieldsets (page TextToImage "" "" empty_slot
                                        empty_slot empty_slot);
              checked_mode := Some TextToImage;
              checked_imageStyle := None;
              checked_aspectRatio := Some Ratio_16_9;
              log := []; ticks := 0 |} in
  exists w',
    generate offline clock w = (Normal tt, w') /\
    log w' = log w ++ [ConsoleError TypeError; Alert genericFailure] /\
    gallery_children w' = [] /\
    is_loading w' = false.
Proof.
  intros w.
  apply (unchecked_radio_is_reported offline clock w
           {| gallery_el := plain; children := [] |}).
  - reflexivity.
  - reflexivity.
  - unfold blank. vm_compute. discriminate.
  - left. reflexivity.
Defined.

(** X12: with a mode checked, a cycle hands the gallery element back
    without the class [loading] and with its other classes in place; a
    gallery that was not loading before has, after the cycle, exactly
    the class list it had. *)
Theorem gallery_classes_restored (ai : Remote) (dateNow : nat -> N)
    (w : World) (g : Gallery) (mode : Mode) :
  imageGallery w = Some g ->
  checked_mode w = Some mode ->
  exists g',
    imageGallery (snd (generate ai dateNow w)) = Some g' /\
    gallery_el g' = classList_remove loading (gallery_el g) /\
    (contains loading (gallery_el g) = false -> gallery_el g' = gallery_el g).
Proof.
  intros Hg Hm.
  assert (Hfinal : exists g',
    imageGallery (snd (generate ai dateNow w)) = Some g' /\
    gallery_el g' = classList_remove loading (gallery_el g)).
  { destruct (cycle_cases ai dateNow w g mode Hg Hm) as (w' & H & Hcases).
    rewrite H; simpl snd.
    assert (Hp : forall c, imageGallery (emit c (prepared w))
                 = Some {| gallery_el := classList_add loading (gallery_el g);
                           children := [] |})
      by (intros c; now apply gallery_prepared).
    destruct Hcases as [[Hd [(msg & Hv & ->) | (Hv & ->)]] | (Hd & c & Hc & Hcall)].
    - rewrite (gallery_unload _ _ (gallery_unload _ _ (Hp (Alert msg)))).
      eexists; split; [reflexivity|]; simpl.
      now rewrite remove_idem, remove_add.
    - rewrite (gallery_failed TypeError (prepared w) _ (Hp (Alert []))).
      eexists; split; [reflexivity|]; simpl. apply remove_add.
    - destruct Hcall as [(e & _ & ->) | (_ & [-> | (urls & ->)])].
      + rewrite (gallery_failed e _ _ (Hp c)).
        eexists; split; [reflexivity|]; simpl. apply remove_add.
      + rewrite (gallery_failed TypeError _ _ (Hp c)).
        eexists; split; [reflexivity|]; simpl. apply remove_add.
      + destruct (gallery_append_all dateNow urls _ _ (Hp c))
          as (cs & Hcs & _).
        rewrite (gallery_unload _ _ Hcs).
        eexists; split; [reflexivity|]; simpl. apply remove_add. }
  destruct Hfinal as (g' & Hg' & Hel).
  exists g'. repeat split; trivial.
  intros Hn. rewrite Hel. now apply remove_absent.
Qed.

Lemma gallery_classes_restored_witness :
  exists g',
    imageGallery
      (snd (generate (stub (Normal two_images) (Normal four_images)) clock
              (page ImageUpscale "" "" (png_slot "SU1H") empty_slot empty_slot)))
    = Some g' /\
    gallery_el g' = classList_remove loading plain /\
    (contains loading plain = false -> gallery_el g' = plain).
Proof.
  apply (gallery_classes_restored
           (stub (Normal two_images) (Normal four_images)) clock
           (page ImageUpscale "" "" (png_slot "SU1H") empty_slot empty_slot)
           {| gallery_el := plain; children := [old_entry] |} ImageUpscale);
    reflexivity.
Defined.

(* ================================================================== *)
(** ** What a cycle renders *)
(* ================================================================== *)

Lemma append_one_exact (dateNow : nat -> N) (url : jsstring) (w : World)
    (g : Gallery) :
  imageGallery w = Some g ->
  imageGallery (append_one dateNow url w)
  = Some (gallery_appendChild
            (image_container url (promptInput_value w) (dateNow (ticks w))) g)
  /\ promptInput_value (append_one dateNow url w) = promptInput_value w
  /\ ticks (append_one dateNow url w) = S (ticks w).
Proof.
  intros Hg. unfold append_one, appendImage, Date_now, bind, gets, modify, ret.
  rewrite Hg; simpl. rewrite Hg. auto.
Qed.

Lemma append_all_rendered (dateNow : nat -> N) (urls : list jsstring)
    (w : World) (g : Gallery) :
  imageGallery w = Some g ->
  imageGallery (append_all dateNow urls w)
  = Some {| gallery_el := gallery_el g;
            children := children g
                        ++ rendered dateNow (promptInput_value w) (ticks w) urls |}.
Proof.
  revert w g; induction urls as [|u urls IH]; intros w g Hg; simpl.
  - rewrite app_nil_r. now destruct g.
  - destruct (append_one_exact dateNow u w g Hg) as (Hg1 & Hp & Ht).
    unfold append_all in *; simpl.
    rewrite (IH _ _ Hg1), Hp, Ht; simpl.
    now rewrite <- app_assoc.
Qed.

(** X13: the gallery of a successful content-edit cycle, child by
    child: for each inline part in order, an image and a link on that
    part's data URL, the prompt as alternative text (the fixed fallback
    when the prompt is empty), and a download name made from the next
    reading of the clock with the extension [.png] whatever the MIME
    type of the part. *)
Theorem content_cycle_renders (ai : Remote) (dateNow : nat -> N)
    (w : World) (g : Gallery) (mode : Mode)
    (response : GenerateContentResponse) (ps : list Part) :
  imageGallery w = Some g ->
  checked_mode w = Some mode ->
  content_mode mode = true ->
  valid mode w = true ->
  generateContent ai (content_request mode w) = Normal response ->
  first_parts response = Some ps ->
  gallery_children (snd (generate ai dateNow w))
  = rendered dateNow (promptInput_value w) (ticks w)
      (map (fun d => dataUrl (blob_mimeType d) (blob_data d)) (inline_blobs ps)).
Proof.
  intros Hg Hm Hc Hv Hr Hp.
  pose proof (content_cycle ai dateNow w g mode Hg Hm Hc Hv) as H.
  cbv zeta in H. rewrite Hr, Hp in H. rewrite H; simpl snd.
  rewrite children_unload. unfold gallery_children.
  rewrite (append_all_rendered dateNow _ _ _
             (gallery_prepared w g _ Hg)).
  reflexivity.
Qed.

Lemma content_cycle_renders_witness :
  gallery_children
    (snd (generate (stub (Normal two_images) (Normal four_images)) clock
            (page FaceSwap "" "" empty_slot (png_slot "U1JD") (png_slot "VEdU"))))
  = [ {| img_src := js "data:image/png;base64,QUJD";
         img_alt := js "Generated/Edited Image";
         link_href := js "data:image/png;base64,QUJD";
         link_download := js "imagen-generated-1700000000000.png" |};
      {| img_src := js "data:image/jpeg;base64,REVG";
         img_alt := js "Generated/Edited Image";
         link_href := js "data:image/jpeg;base64,REVG";
         link_download := js "imagen-generated-1700000000001.png" |} ].
Proof.
  apply (content_cycle_renders
           (stub (Normal two_images) (Normal four_images)) clock
           (page FaceSwap "" "" empty_slot (png_slot "U1JD") (png_slot "VEdU"))
           {| gallery_el := plain; children := [old_entry] |} FaceSwap
           two_images
           [image_part "image/png" "QUJD"; text_part "done";
            image_part "image/jpeg" "REVG"]);
    reflexivity.
Defined.

Lemma js_inj (a b : string) : js a = js b -> a = b.
Proof.
  unfold js. intros H.
  rewrite <- (string_of_list_ascii_of_string a),
          <- (string_of_list_ascii_of_string b).
  f_equal.
  revert H. generalize (list_ascii_of_string b).
  induction (list_ascii_of_string a) as [|x l IH]; intros [|y l']; simpl;
    try discriminate; [reflexivity|].
  intros [= Hxy Hl]. f_equal; [|now apply IH].
  rewrite <- (ascii_N_embedding x), <- (ascii_N_embedding y). now f_equal.
Qed.

Lemma decimal_inj (n m : N) : decimal n = decimal m -> n = m.
Proof.
  unfold decimal. intros H. apply js_inj in H.
  assert (Hnn : forall k, N.to_uint k <> Decimal.Nil).
  { intros [|p]; simpl; [discriminate|].
    apply DecimalPos.Unsigned.to_uint_nonnil. }
  apply (f_equal NilZero.uint_of_string) in H.
  rewrite !NilZero.usu in H by apply Hnn.
  injection H as H. now apply DecimalN.Unsigned.to_uint_inj.
Qed.

(** X14: two images appended one after the other get the same download
    name exactly when the clock gave the same reading both times; the
    name never depends on the image. *)
Theorem download_names_follow_clock (dateNow : nat -> N) (u1 u2 : jsstring)
    (w : World) (g : Gallery) :
  imageGallery w = Some g ->
  exists c1 c2,
    gallery_children
      (snd ((appendImage dateNow u1 ;; appendImage dateNow u2) w))
    = children g ++ [c1; c2] /\
    (link_download c1 = link_download c2
     <-> dateNow (ticks w) = dateNow (S (ticks w))).
Proof.
  intros Hg.
  exists (image_container u1 (promptInput_value w) (dateNow (ticks w))),
         (image_container u2 (promptInput_value w) (dateNow (S (ticks w)))).
  split.
  - unfold bind. rewrite appendImage_run, appendImage_run; simpl snd.
    pose proof (append_all_rendered dateNow [u1; u2] w g Hg) as H.
    unfold append_all in H; simpl in H.
    unfold gallery_children. now rewrite H.
  - unfold image_container; cbn [link_download]. split.
    + intros H. apply app_inv_head in H. apply app_inv_tail in H.
      now apply decimal_inj.
    + now intros ->.
Qed.

Lemma download_names_follow_clock_witness :
  exists c1 c2,
    gallery_children
      (snd ((appendImage (fun _ => 42%N) (js "data:a") ;;
             appendImage (fun _ => 42%N) (js "data:b"))
              (page TextToImage "" "" empty_slot empty_slot empty_slot)))
    = [old_entry] ++ [c1; c2] /\
    (link_download c1 = link_download c2 <-> 42%N = 42%N).
Proof.
  apply (download_names_follow_clock (fun _ => 42%N) (js "data:a") (js "data:b")
           (page TextToImage "" "" empty_slot empty_slot empty_slot)
           {| gallery_el := plain; children := [old_entry] |}).
  reflexivity.
Defined.

(* ================================================================== *)
(** ** Blank prompts *)
(* ================================================================== *)

Lemma trimStart_nil (s : jsstring) :
  trimStart s = [] <-> forallb is_white s = true.
Proof.
  induction s as [|c s IH]; simpl; [tauto|].
  destruct (is_white c); simpl; [exact IH|].
  split; discriminate.
Qed.

Lemma trimStart_keeps_black (s : jsstring) :
  forallb is_white (trimStart s) = true -> trimStart s = [].
Proof.
  induction s as [|c s IH]; simpl; [reflexivity|].
  destruct (is_white c) eqn:E; [exact IH|].
  simpl. rewrite E. discriminate.
Qed.

Lemma forallb_rev {A} (f : A -> bool) (l : list A) :
  forallb f (rev l) = forallb f l.
Proof.
  induction l as [|x l IH]; simpl; [reflexivity|].
  rewrite forallb_app; simpl. rewrite IH, andb_true_r. apply andb_comm.
Qed.

Lemma trim_nil (s : jsstring) : trim s = [] <-> forallb is_white s = true.
Proof.
  unfold trim, trimEnd. split.
  - intros H. apply (f_equal (@rev N)) in H.
    rewrite rev_involutive in H; simpl in H.
    apply trimStart_nil in H. rewrite forallb_rev in H.
    apply trimStart_keeps_black in H. now apply trimStart_nil.
  - intros H. apply trimStart_nil in H. now rewrite H.
Qed.

(** X15: a text-to-image submission stops at the request for a prompt
    exactly when the prompt consists of white space and line
    terminators only (the empty prompt included). *)
Theorem prompt_alert_iff_whitespace (ai : Remote) (dateNow : nat -> N)
    (w : World) (g : Gallery) :
  imageGallery w = Some g ->
  checked_mode w = Some TextToImage ->
  log (snd (generate ai dateNow w)) = log w ++ [Alert (js "Please enter a prompt.")]
  <-> forallb is_white (promptInput_value w) = true.
Proof.
  intros Hg Hm. rewrite <- trim_nil. split.
  - intros Hl.
    destruct (trim (promptInput_value w)) as [|c r] eqn:E; [reflexivity|].
    exfalso.
    destruct (cycle_cases ai dateNow w g TextToImage Hg Hm)
      as (w' & H & Hcases).
    rewrite H in Hl; simpl in Hl.
    destruct Hcases as [[Hd [(msg & Hv & ->) | (Hv & ->)]] | (Hd & call & Hc & Hcall)].
    + unfold valid, nonblank in Hv. rewrite E in Hv. discriminate Hv.
    + rewrite log_failed in Hl. apply app_inv_head in Hl. discriminate Hl.
    + assert (Hfirst : exists tail,
                log w' = log w ++ call :: tail).
      { destruct Hcall as [(e & _ & Hw) | (_ & [Hw | (urls & Hw)])];
          rewrite Hw.
        - eexists. rewrite log_failed.
          change (log (emit call (prepared w))) with (log w ++ [call]).
          rewrite <- app_assoc. reflexivity.
        - eexists. rewrite log_failed.
          change (log (emit call (prepared w))) with (log w ++ [call]).
          rewrite <- app_assoc. reflexivity.
        - exists []. change (log (unload ?x)) with (log x).
          rewrite log_append_all. reflexivity. }
      destruct Hfirst as [tail Ht]. rewrite Ht in Hl.
      apply app_inv_head in Hl. injection Hl as -> _. discriminate Hc.
  - intros E.
    rewrite (generate_outcome ai dateNow w g TextToImage Hg Hm).
    unfold generate_body, bind, gets.
    change (promptInput_value (prepared w)) with (promptInput_value w).
    rewrite E. reflexivity.
Qed.

Lemma prompt_alert_iff_whitespace_witness :
  log (snd (generate offline clock
              (page TextToImage "" "" empty_slot empty_slot empty_slot)))
  = [] ++ [Alert (js "Please enter a prompt.")]
  <-> forallb is_white [] = true.
Proof.
  apply (prompt_alert_iff_whitespace offline clock
           (page TextToImage "" "" empty_slot empty_slot empty_slot)
           {| gallery_el := plain; children := [old_entry] |});
    reflexivity.
Defined.

(* ================================================================== *)
(** ** Submissions after other actions *)
(* ================================================================== *)

(** X16: uploads do not survive a visit to a mode that does not use
    them: after a switch to such a mode and back, a submission stops at
    its validation alert and makes no remote call.  (A visit from image
    edit to upscale or back keeps the uploaded image.) *)
Theorem visit_empties_slots (ai : Remote) (dateNow : nat -> N)
    (w : World) (g : Gallery) (mode other : Mode) :
  imageGallery w = Some g ->
  checked_mode w = Some mode ->
  visit_clears mode other = true ->
  exists msg w',
    generate ai dateNow
      (snd (updateUiForMode mode (snd (updateUiForMode other w))))
    = (Normal tt, w') /\
    log w' = log w ++ [Alert msg] /\
    remote_calls (log w') = remote_calls (log w).
Proof.
  intros Hg Hm Hc.
  destruct w as [sg sr tg gl pv nv fs cm cs ca lg tk].
  cbn [imageGallery checked_mode] in Hg, Hm. subst gl cm.
  destruct (aborted_cycle ai dateNow
              (snd (updateUiForMode mode
                      (snd (updateUiForMode other
                              {| single := sg; source := sr; target := tg;
                                 imageGallery := Some g;
                                 promptInput_value := pv;
                                 negativePromptInput_value := nv;
                                 fieldsets := fs; checked_mode := Some mode;
                                 checked_imageStyle := cs;
                                 checked_aspectRatio := ca;
                                 log := lg; ticks := tk |}))))
              g mode) as [msg H].
  - destruct mode, other; reflexivity.
  - destruct mode, other; reflexivity.
  - destruct mode, other; try discriminate Hc; reflexivity.
  - exists msg; eexists; split; [exact H|]. split.
    + destruct mode, other; try discriminate Hc; reflexivity.
    + transitivity (remote_calls (lg ++ [Alert msg]));
        [|apply calls_snoc_alert].
      destruct mode, other; try discriminate Hc; reflexivity.
Qed.

Lemma visit_empties_slots_witness :
  exists msg w',
    generate (stub (Normal two_images) (Normal four_images)) clock
      (snd (updateUiForMode FaceSwap
              (snd (updateUiForMode ImageUpscale
                      (page FaceSwap "" "" empty_slot (png_slot "U1JD")
                         (png_slot "VEdU"))))))
    = (Normal tt, w') /\
    log w' = [] ++ [Alert msg] /\
    remote_calls (log w') = [].
Proof.
  apply (visit_empties_slots
           (stub (Normal two_images) (Normal four_images)) clock
           (page FaceSwap "" "" empty_slot (png_slot "U1JD") (png_slot "VEdU"))
           {| gallery_el := plain; children := [old_entry] |}
           FaceSwap ImageUpscale);
    reflexivity.
Defined.

(** X17: after clear-all, a submission in any mode stops at its
    validation alert and makes no remote call: the prompt is blank and
    every slot is empty. *)
Theorem submit_after_clearAll_aborts (ai : Remote) (dateNow : nat -> N)
    (w : World) (g : Gallery) (mode : Mode) :
  imageGallery w = Some g ->
  checked_mode w = Some mode ->
  exists msg w',
    generate ai dateNow (snd (clearAll w)) = (Normal tt, w') /\
    log w' = log w ++ [Alert msg] /\
    remote_calls (log w') = remote_calls (log w).
Proof.
  intros Hg Hm.
  destruct w as [sg sr tg gl pv nv fs cm cs ca lg tk].
  cbn [imageGallery checked_mode] in Hg, Hm. subst gl cm.
  destruct (aborted_cycle ai dateNow
              (snd (clearAll
                      {| single := sg; source := sr; target := tg;
                         imageGallery := Some g;
                         promptInput_value := pv;
                         negativePromptInput_value := nv;
                         fieldsets := fs; checked_mode := Some mode;
                         checked_imageStyle := cs;
                         checked_aspectRatio := ca;
                         log := lg; ticks := tk |}))
              (gallery_clear g) mode) as [msg H].
  - reflexivity.
  - reflexivity.
  - destruct mode; reflexivity.
  - exists msg; eexists; split; [exact H|]. split; [reflexivity|].
    exact (calls_snoc_alert lg msg).
Qed.

Lemma submit_after_clearAll_aborts_witness :
  exists msg w',
    generate (stub (Normal two_images) (Normal four_images)) clock
      (snd (clearAll
              (page ImageEdit "make the sky purple" "" (png_slot "SU1H")
                 empty_slot empty_slot)))
    = (Normal tt, w') /\
    log w' = [] ++ [Alert msg] /\
    remote_calls (log w') = [].
Proof.
  apply (submit_after_clearAll_aborts
           (stub (Normal two_images) (Normal four_images)) clock
           (page ImageEdit "make the sky purple" "" (png_slot "SU1H")
              empty_slot empty_slot)
           {| gallery_el := plain; children := [old_entry] |} ImageEdit);
    reflexivity.
Defined.

(** X18: an image file whose reader result has no comma, or nothing
    between its first and second comma, leaves the single slot with the
    preview showing and the drop zone hidden but without a usable
    image: a submission in image edit or upscale then asks for an
    upload and makes no remote call. *)
Theorem upload_without_payload_is_unusable (ai : Remote) (dateNow : nat -> N)
    (file : File) (result : jsstring) (w : World) (g : Gallery) (mode : Mode) :
  startsWith (file_type file) (js "image/") = true ->
  file_read file = Loaded result ->
  truthy (nth_error (split_comma result) 1) = false ->
  imageGallery w = Some g ->
  checked_mode w = Some mode ->
  mode = ImageEdit \/ mode = ImageUpscale ->
  exists w1 w2,
    handleSingleFile file w = (Normal tt, w1) /\
    is_shown (previewContainer (single w1)) /\
    is_hidden (dropZoneWrapper (single w1)) /\
    generate ai dateNow w1 = (Normal tt, w2) /\
    log w2 = log w ++
      [Alert (js "Please upload an image for "
              ++ match mode with
                 | ImageEdit => js "editing"
                 | _ => js "upscaling"
                 end ++ js ".")].
Proof.
  intros Hi Hr Ht Hg Hm Hmode.
  destruct (fileHandler_accepts SingleSlot file w
              (nth_error (split_comma result) 1) (file_type file))
    as (w1 & H1 & Hs & _ & Hl & Hg1 & Hm1 & _).
  { unfold fileToBase64. now rewrite Hi, Hr. }
  cbn [slot_of fileHandler] in *.
  rewrite Hg in Hg1. rewrite Hm in Hm1.
  assert (Hb : truthy (uploadedImageBase64 (prepared w1)) = false).
  { change (uploadedImageBase64 (prepared w1)) with (imageBase64 (single w1)).
    now rewrite Hs. }
  destruct Hmode; subst mode;
    exists w1; eexists; (split; [exact H1|]);
    rewrite Hs; cbn [store_image previewContainer dropZoneWrapper];
    (split; [apply show_is_shown|]); (split; [apply hide_is_hidden|]);
    rewrite (generate_outcome ai dateNow w1 g _ Hg1 Hm1);
    unfold generate_body, bind, gets; rewrite Hb;
    cbn [negb orb]; (split; [reflexivity|]);
    rewrite <- Hl; reflexivity.
Qed.

Lemma upload_without_payload_is_unusable_witness :
  exists w1 w2,
    handleSingleFile {| file_type := js "image/png"; file_read := Loaded (js "data:") |}
      (page ImageUpscale "" "" empty_slot empty_slot empty_slot)
    = (Normal tt, w1) /\
    is_shown (previewContainer (single w1)) /\
    is_hidden (dropZoneWrapper (single w1)) /\
    generate offline clock w1 = (Normal tt, w2) /\
    log w2 = [] ++ [Alert (js "Please upload an image for "
                           ++ js "upscaling" ++ js ".")].
Proof.
  apply (upload_without_payload_is_unusable offline clock
           {| file_type := js "image/png"; file_read := Loaded (js "data:") |}
           (js "data:")
           (page ImageUpscale "" "" empty_slot empty_slot empty_slot)
           {| gallery_el := plain; children := [old_entry] |} ImageUpscale).
  - reflexivity.
  - reflexivity.
  - reflexivity.
  - reflexivity.
  - reflexivity.
  - right. reflexivity.
Defined.

(* ================================================================== *)
(** ** What every reachable page satisfies *)
(* ================================================================== *)

Lemma slot_ok_clear (s : Slot) : slot_ok (clear_slot s).
Proof.
  left. repeat split; cbn [clear_slot previewContainer dropZoneWrapper].
  - apply hide_is_hidden.
  - apply show_is_shown.
Qed.

Lemma slot_ok_store (b : option jsstring) (m : jsstring) (s : Slot) :
  startsWith m (js "image/") = true -> slot_ok (store_image b m s).
Proof.
  intros H. right. exists m.
  repeat split; trivial; cbn [store_image previewContainer dropZoneWrapper].
  - apply show_is_shown.
  - apply hide_is_hidden.
Qed.

Lemma slots_ok_by_id (w : World) :
  slots_ok w <-> forall s, slot_ok (slot_of s w).
Proof.
  unfold slots_ok. split.
  - intros (H1 & H2 & H3) []; assumption.
  - intros H. repeat split;
      [apply (H SingleSlot) | apply (H SourceSlot) | apply (H TargetSlot)].
Qed.

Lemma slots_ok_same_form (w w' : World) :
  form_of w' = form_of w -> slots_ok w -> slots_ok w'.
Proof.
  unfold form_of, slots_ok. intros [= -> -> -> _ _ _ _ _ _]. trivial.
Qed.

Lemma fileToBase64_type (file : File) (b : option jsstring) (m : jsstring) :
  fileToBase64 file = Normal (b, m) -> startsWith m (js "image/") = true.
Proof.
  unfold fileToBase64.
  destruct (startsWith (file_type file) (js "image/")) eqn:E; cbn [negb];
    [|discriminate].
  destruct (file_read file); [|discriminate].
  now intros [= _ <-].
Qed.

Lemma fileHandler_keeps_ok (s : SlotId) (file : File) (w : World) :
  slots_ok w -> slots_ok (snd (fileHandler s file w)).
Proof.
  intros Hok.
  destruct (fileToBase64 file) as [[b m]|e] eqn:E.
  - destruct (fileHandler_accepts s file w b m E) as (w' & H & Hs & Ho & _).
    rewrite H; cbn [snd]. apply slots_ok_by_id. intros s'.
    destruct s, s';
      try (rewrite Ho by discriminate; apply (proj1 (slots_ok_by_id w) Hok));
      rewrite Hs; apply slot_ok_store; apply (fileToBase64_type file b m E).
  - rewrite (fileHandler_rejects s file w e E); cbn [snd].
    exact Hok.
Qed.

Lemma removeImage_keeps_ok (s : SlotId) (w : World) :
  slots_ok w -> slots_ok (snd (removeImage s w)).
Proof.
  intros (H1 & H2 & H3).
  destruct s; repeat split; trivial; apply slot_ok_clear.
Qed.

Lemma updateUiForMode_keeps_ok (mode : Mode) (w : World) :
  slots_ok w -> slots_ok (snd (updateUiForMode mode w)).
Proof.
  intros (H1 & H2 & H3).
  destruct mode; repeat split; trivial; apply slot_ok_clear.
Qed.

Lemma clearAll_makes_ok (w : World) : slots_ok (snd (clearAll w)).
Proof. repeat split; apply slot_ok_clear. Qed.

Lemma dispatch_keeps_ok (ai : Remote) (dateNow : nat -> N) (ev : UserEvent)
    (p : Page) :
  slots_ok (world p) -> slots_ok (world (dispatch ai dateNow ev p)).
Proof.
  intros Hok. destruct ev as [| |mode|s files|s|s|s|s files];
    cbn [dispatch].
  - apply (slots_ok_same_form (world p)); [apply keeps_generate | exact Hok].
  - apply clearAll_makes_ok.
  - now apply updateUiForMode_keeps_ok.
  - destruct (first_file files); [now apply fileHandler_keeps_ok | exact Hok].
  - now apply removeImage_keeps_ok.
  - destruct s; exact Hok.
  - destruct s; exact Hok.
  - destruct (zone_of s p); [|exact Hok].
    unfold drop_listener.
    destruct (first_file files); cbn [in_world world].
    + apply fileHandler_keeps_ok. destruct s; exact Hok.
    + destruct s; exact Hok.
Qed.

Lemma run_keeps_ok (ai : Remote) (dateNow : nat -> N) (evs : list UserEvent)
    (p : Page) :
  slots_ok (world p) -> slots_ok (world (run ai dateNow evs p)).
Proof.
  revert p; induction evs as [|ev evs IH]; intros p Hok; [exact Hok|].
  apply IH. now apply dispatch_keeps_ok.
Qed.

Lemma loaded_ok (p : Page) : slots_ok (world (loaded p)).
Proof. repeat split; apply slot_ok_clear. Qed.

(** X19: on the loaded page and after any sequence of user events
    (submissions, clear-all, mode changes, chosen or dropped files of
    any kind, removals, drags), each of the three slots is in one of two
    states: empty, with preview hidden and drop zone showing, or holding
    a MIME type that starts with [image/], with preview showing and
    drop zone hidden. *)
Theorem slots_stay_consistent (ai : Remote) (dateNow : nat -> N)
    (evs : list UserEvent) (p : Page) :
  slots_ok (world (run ai dateNow evs (loaded p))).
Proof. apply run_keeps_ok, loaded_ok. Qed.

(** X20: in every world reached from the loaded page, a face-swap
    submission that passes its validation sends both images with a MIME
    type that is present and starts with [image/], although the
    validation only looks at the image data. *)
Theorem face_swap_request_has_mime_types (ai : Remote) (dateNow : nat -> N)
    (evs : list UserEvent) (p : Page) (g : Gallery) :
  let w := world (run ai dateNow evs (loaded p)) in
  imageGallery w = Some g ->
  checked_mode w = Some FaceSwap ->
  valid FaceSwap w = true ->
  exists sm tm w' tail,
    startsWith sm (js "image/") = true /\
    startsWith tm (js "image/") = true /\
    generate ai dateNow w = (Normal tt, w') /\
    log w' = log w ++
      CallGenerateContent
        {| gc_model := imageEditModel;
           gc_parts := [InlineData (sourceImageBase64 w) (Some sm);
                        InlineData (targetImageBase64 w) (Some tm);
                        Text faceSwapInstruction];
           gc_responseModalities := [IMAGE; TEXT] |} :: tail.
Proof.
  intros w Hg Hm Hv.
  destruct (run_keeps_ok ai dateNow evs (loaded p) (loaded_ok p))
    as (_ & Hsrc & Htgt).
  fold w in Hsrc, Htgt.
  unfold valid in Hv. apply andb_prop in Hv as [Hs Ht].
  assert (Hmime : forall s, slot_ok s -> truthy (imageBase64 s) = true ->
            exists m, imageMimeType s = Some m
                      /\ startsWith m (js "image/") = true).
  { intros s [(Hb & _) | (m & Hm' & Hi & _)] Htr.
    - rewrite Hb in Htr. discriminate.
    - eauto. }
  destruct (Hmime _ Hsrc Hs) as (sm & Hsm & Hism).
  destruct (Hmime _ Htgt Ht) as (tm & Htm & Hitm).
  destruct (content_cycle_log ai dateNow w g FaceSwap Hg Hm eq_refl)
    as (w' & tail & H & Hl & _).
  { unfold valid. now rewrite Hs, Ht. }
  exists sm, tm, w', tail. repeat split; trivial.
  rewrite Hl. unfold content_request, sourceImageMimeType, targetImageMimeType.
  now rewrite Hsm, Htm.
Qed.

Lemma face_swap_request_has_mime_types_witness :
  let evs := [ModeChange FaceSwap;
              InputChange SourceSlot (Some [png_file]);
              Drop TargetSlot (Some [png_file; text_file])] in
  let p := {| world := page FaceSwap "" "" empty_slot empty_slot empty_slot;
              dropZone := Some plain; sourceDropZone := Some plain;
              targetDropZone := Some plain |} in
  let w := world (run offline clock evs (loaded p)) in
  exists sm tm w' tail,
    startsWith sm (js "image/") = true /\
    startsWith tm (js "image/") = true /\
    generate offline clock w = (Normal tt, w') /\
    log w' = log w ++
      CallGenerateContent
        {| gc_model := imageEditModel;
           gc_parts := [InlineData (sourceImageBase64 w) (Some sm);
                        InlineData (targetImageBase64 w) (Some tm);
                        Text faceSwapInstruction];
           gc_responseModalities := [IMAGE; TEXT] |} :: tail.
Proof.
  intros evs p.
  apply (face_swap_request_has_mime_types offline clock evs p
           {| gallery_el := plain; children := [old_entry] |});
    reflexivity.
Defined.

(* ================================================================== *)
(** ** Drag highlight and first submission *)
(* ================================================================== *)

Lemma on_zone_id (s : SlotId) (f : Element -> Element) (p : Page) :
  (forall z, zone_of s p = Some z -> f z = z) -> on_zone s f p = p.
Proof.
  intros H. destruct p as [w z1 z2 z3], s;
    cbn [on_zone zone_of world dropZone sourceDropZone targetDropZone] in *;
    f_equal;
    match goal with
    | |- option_map f ?z = ?z =>
        destruct z as [e|]; cbn [option_map]; [now rewrite H | reflexivity]
    end.
Qed.

Lemma on_zone_compose (s : SlotId) (f h : Element -> Element) (p : Page) :
  on_zone s f (on_zone s h p) = on_zone s (fun z => f (h z)) p.
Proof.
  destruct p as [w z1 z2 z3], s;
    cbn [on_zone world dropZone sourceDropZone targetDropZone];
    f_equal;
    match goal with
    | |- option_map f (option_map h ?z) = _ => now destruct z
    end.
Qed.

Lemma drag_then_leave (ai : Remote) (dateNow : nat -> N) (s : SlotId)
    (n : nat) (q : Page) :
  run ai dateNow (repeat (DragOver s) n ++ [DragLeave s]) q
  = on_zone s (classList_remove dragover) q.
Proof.
  revert q; induction n as [|n IH]; intros q; [reflexivity|].
  cbn [repeat app]. unfold run in *; cbn [fold_left].
  rewrite IH. cbn [dispatch]. rewrite on_zone_compose.
  destruct q as [w z1 z2 z3], s;
    cbn [on_zone world dropZone sourceDropZone targetDropZone]; f_equal;
    match goal with
    | |- option_map _ ?z = _ =>
        destruct z; cbn [option_map]; [now rewrite remove_add | reflexivity]
    end.
Qed.

Lemma drag_then_drop_nothing (ai : Remote) (dateNow : nat -> N) (s : SlotId)
    (n : nat) (q : Page) :
  run ai dateNow (repeat (DragOver s) n ++ [Drop s None]) q
  = on_zone s (classList_remove dragover) q.
Proof.
  revert q; induction n as [|n IH]; intros q.
  - unfold run; cbn [repeat app fold_left dispatch].
    destruct (zone_of s q) eqn:Hz; [reflexivity|].
    symmetry. apply on_zone_id. intros z Hz'. congruence.
  - cbn [repeat app]. unfold run in *; cbn [fold_left].
    rewrite IH. cbn [dispatch]. rewrite on_zone_compose.
    destruct q as [w z1 z2 z3], s;
      cbn [on_zone world dropZone sourceDropZone targetDropZone]; f_equal;
      match goal with
      | |- option_map _ ?z = _ =>
          destruct z; cbn [option_map]; [now rewrite remove_add | reflexivity]
      end.
Qed.

(** X21: dragging over a zone any number of times and then leaving it,
    or dropping nothing on it, gives back the page as it was before the
    drag, provided the zone was not highlighted to begin with: the
    class [dragover] never stays behind, and the world is untouched. *)
Theorem drag_highlight_is_transient (ai : Remote) (dateNow : nat -> N)
    (s : SlotId) (n : nat) (p : Page) :
  (forall z, zone_of s p = Some z -> contains dragover z = false) ->
  run ai dateNow (repeat (DragOver s) n ++ [DragLeave s]) p = p /\
  run ai dateNow (repeat (DragOver s) n ++ [Drop s None]) p = p.
Proof.
  intros Habsent.
  rewrite drag_then_leave, drag_then_drop_nothing.
  assert (on_zone s (classList_remove dragover) p = p).
  { apply on_zone_id. intros z Hz. apply remove_absent. now apply Habsent. }
  now split.
Qed.

Lemma drag_highlight_is_transient_witness :
  let p := {| world := page ImageEdit "" "" empty_slot empty_slot empty_slot;
              dropZone := Some {| classList := [js "drop-zone"] |};
              sourceDropZone := None; targetDropZone := Some plain |} in
  run offline clock (repeat (DragOver SingleSlot) 3 ++ [DragLeave SingleSlot]) p = p /\
  run offline clock (repeat (DragOver SingleSlot) 3 ++ [Drop SingleSlot None]) p = p.
Proof.
  intros p.
  apply (drag_highlight_is_transient offline clock SingleSlot 3 p).
  intros z [= <-]. reflexivity.
Defined.

(** X22: the first submission on a freshly loaded page, with text to
    image selected, the style radio on its empty value and an aspect
    ratio checked, passes validation and asks for images of the built-in
    default prompt, unchanged. *)
Theorem first_submit_sends_default_prompt (ai : Remote) (dateNow : nat -> N)
    (p : Page) (g : Gallery) (ratio : AspectRatio) :
  imageGallery (world p) = Some g ->
  checked_mode (world p) = Some TextToImage ->
  checked_imageStyle (world p) = Some [] ->
  checked_aspectRatio (world p) = Some ratio ->
  remote_calls (log (world (dispatch ai dateNow Submit (loaded p))))
  = remote_calls (log (world p)) ++
    [CallGenerateImages
       {| gi_model := textToImageModel;
          gi_prompt := defaultImagenPrompt;
          numberOfImages := 4;
          outputMimeType := js "image/png";
          aspectRatio := ratio;
          negativePrompt := negativePromptInput_value (world p) |}].
Proof.
  intros Hg Hm Hs Hr.
  destruct p as [w z1 z2 z3]. cbn [world] in *.
  destruct w as [sg sr tg gl pv nv fs cm cs ca lg tk].
  cbn [imageGallery checked_mode checked_imageStyle checked_aspectRatio] in *.
  subst gl cm cs ca.
  cbn [dispatch in_world world loaded].
  destruct (images_cycle_log ai dateNow
              (snd (init {| single := sg; source := sr; target := tg;
                            imageGallery := Some g;
                            promptInput_value := pv;
                            negativePromptInput_value := nv;
                            fieldsets := fs;
                            checked_mode := Some TextToImage;
                            checked_imageStyle := Some [];
                            checked_aspectRatio := Some ratio;
                            log := lg; ticks := tk |}))
              g [] defaultImagenPrompt ratio)
    as (w' & tail & H & Hl & Ht & _).
  - reflexivity.
  - reflexivity.
  - vm_compute. reflexivity.
  - reflexivity.
  - reflexivity.
  - apply no_style.
  - rewrite H; cbn [snd]. rewrite Hl.
    rewrite calls_snoc_call; trivial.
Qed.

Lemma first_submit_sends_default_prompt_witness :
  let p := {| world := page TextToImage "whatever was typed" "" empty_slot
                         empty_slot empty_slot;
              dropZone := None; sourceDropZone := None;
              targetDropZone := None |} in
  remote_calls (log (world (dispatch offline clock Submit (loaded p))))
  = remote_calls (log (world p)) ++
    [CallGenerateImages
       {| gi_model := textToImageModel;
          gi_prompt := defaultImagenPrompt;
          numberOfImages := 4;
          outputMimeType := js "image/png";
          aspectRatio := Ratio_1_1;
          negativePrompt := negativePromptInput_value (world p) |}].
Proof.
  intros p.
  apply (first_submit_sends_default_prompt offline clock p
           {| gallery_el := plain; children := [old_entry] |} Ratio_1_1);
    reflexivity.
Defined.

(** X23: the gallery of a successful text-to-image cycle, child by
    child: one entry per generated image in order, on the PNG data URL
    of its bytes, with the user prompt as alternative text and a
    download name from the next clock reading; an answer without images
    leaves the gallery empty. *)
Theorem text_to_image_renders (ai : Remote) (dateNow : nat -> N)
    (w : World) (g : Gallery) (style final : jsstring) (ratio : AspectRatio)
    (response : GenerateImagesResponse) :
  imageGallery w = Some g ->
  checked_mode w = Some TextToImage ->
  ~ blank (promptInput_value w) ->
  checked_imageStyle w = Some style ->
  checked_aspectRatio w = Some ratio ->
  final_prompt (promptInput_value w) style final ->
  generateImages ai
    {| gi_model := textToImageModel;
       gi_prompt := final;
       numberOfImages := 4;
       outputMimeType := js "image/png";
       aspectRatio := ratio;
       negativePrompt := negativePromptInput_value w |} = Normal response ->
  gallery_children (snd (generate ai dateNow w))
  = rendered dateNow (promptInput_value w) (ticks w)
      (map (fun image => js "data:image/png;base64," ++ imageBytes image)
         (generatedImages response)).
Proof.
  intros Hg Hm Hb Hs Hr Hf Hresp.
  assert (Hv : valid TextToImage w = true).
  { unfold valid, nonblank, blank in *.
    destruct (trim (promptInput_value w)); [contradiction|reflexivity]. }
  pose proof (images_cycle ai dateNow w g style final ratio
                Hg Hm Hv Hs Hr Hf) as H.
  cbv zeta in H. unfold images_request in H at 1.
  rewrite Hresp in H. rewrite H; cbn [snd].
  rewrite children_unload. unfold gallery_children.
  rewrite (append_all_rendered dateNow _ _ _ (gallery_prepared w g _ Hg)).
  reflexivity.
Qed.

Lemma text_to_image_renders_witness :
  gallery_children
    (snd (generate
            (stub (Normal two_images)
               (Normal {| generatedImages := [{| imageBytes := js "AAAA" |}] |}))
            clock
            (page TextToImage "a red bicycle" "" empty_slot empty_slot
               empty_slot)))
  = rendered clock (js "a red bicycle") 0 [js "data:image/png;base64,AAAA"].
Proof.
  apply (text_to_image_renders
           (stub (Normal two_images)
              (Normal {| generatedImages := [{| imageBytes := js "AAAA" |}] |}))
           clock
           (page TextToImage "a red bicycle" "" empty_slot empty_slot empty_slot)
           {| gallery_el := plain; children := [old_entry] |}
           [] (js "a red bicycle") Ratio_1_1
           {| generatedImages := [{| imageBytes := js "AAAA" |}] |}).
  - reflexivity.
  - reflexivity.
  - unfold blank. vm_compute. discriminate.
  - reflexivity.
  - reflexivity.
  - apply no_style.
  - reflexivity.
Defined.
